(** * s3-upload-share: the upload pipeline and the in-memory metadata index

    A shallow embedding of [src/services/fileService.js],
    [src/services/s3Service.js], the upload and the file controller and
    the file filter of the upload routes, followed by the properties the
    specification states about them and by further properties of the
    code.

    Conventions of the embedding.
    - JavaScript numbers that occur here are integer valued (sizes,
      counters, page numbers, millisecond time stamps) and stay far below
      2^53, where double arithmetic on integers is exact: they are [Z].
      The one place where a quotient can leave the integers
      ([total / limit] with [limit = 0]) is given the type [jsnum].
    - A [Date] is its millisecond time value; every [new Date()] and
      [Date.now()] of the source reads a clock, and the reading is an
      explicit argument of the embedded function.
    - A [Map] is an association list in insertion order ([JSMap]); a plain
      object used as a dictionary is a [gmap].
    - An [async] method that can reject is a computation in the monad [M],
      state passing with exceptions; [try]/[catch] is [try_catch].
    - What the outside world answers during one pipeline run (content
      sniffer, image codec, object store, URL signer, uuid generator) is
      collected in a record [Env]. *)

From Stdlib Require Import ZArith String Ascii List Lia Permutation Sorted ssreflect.
From stdpp Require Import base option list gmap strings.

Set Warnings "-rewrite-rw".

Local Open Scope Z_scope.

(** ** Host language pieces *)

Module JS.

(** [a || b] on numbers: [0] is the only falsy integer. *)
Definition or_num (a b : Z) : Z := if a =? 0 then b else a.

(** [x || 0] where [x] may be [undefined]. *)
Definition or_zero (x : option Z) : Z :=
  match x with
  | Some n => or_num n 0
  | None => 0
  end.

(** Truthiness of a string that may be [undefined]. *)
Definition truthy_str (x : option string) : bool :=
  match x with
  | Some s => negb (String.eqb s EmptyString)
  | None => false
  end.

(** [s.startsWith(p)] *)
Definition startsWith (s p : string) : bool := String.prefix p s.

(** [s.includes(sub)] *)
Fixpoint includes (s sub : string) : bool :=
  String.prefix sub s ||
  match s with
  | EmptyString => false
  | String _ s' => includes s' sub
  end.

(** The value of an arithmetic expression that may leave the integers. *)
Inductive jsnum :=
| NaN
| PosInf
| NegInf
| Num (z : Z).

(** [a / b] followed by [Math.ceil], for integers [a] and [b]. *)
Definition ceil_div (a b : Z) : jsnum :=
  if b =? 0 then
    (if a =? 0 then NaN else if 0 <? a then PosInf else NegInf)
  else Num (- ((- a) / b)).

(** [n < x] for an integer [n]. *)
Definition lt_num (n : Z) (x : jsnum) : bool :=
  match x with
  | NaN => false
  | PosInf => true
  | NegInf => false
  | Num z => n <? z
  end.

(** [Math.round(a / b)] for [b > 0]: nearest integer, halves upwards. *)
Definition round_div (a b : Z) : Z := (2 * a + b) / (2 * b).

(** [l.slice(start, end)]: negative indices count from the end, and both
    are clamped to the length. *)
Definition slice {A} (l : list A) (start stop : Z) : list A :=
  let len := Z.of_nat (length l) in
  let k := if start <? 0 then Z.max (len + start) 0 else Z.min start len in
  let final := if stop <? 0 then Z.max (len + stop) 0 else Z.min stop len in
  firstn (Z.to_nat (final - k)) (skipn (Z.to_nat k) l).

(** [l.sort(cmp)]. The language requires the sort to be stable; for a
    comparator that is a consistent ordering the result is then fixed
    by the input, whatever algorithm the engine runs (see
    [SortFacts.sort_unique]). It is computed here by stable insertion. *)
Section Sort.
Context {A : Type} (cmp : A -> A -> Z).

Fixpoint insert (x : A) (l : list A) : list A :=
  match l with
  | [] => [x]
  | y :: l' => if cmp x y <=? 0 then x :: y :: l' else y :: insert x l'
  end.

Fixpoint sort (l : list A) : list A :=
  match l with
  | [] => []
  | x :: l' => insert x (sort l')
  end.
End Sort.

End JS.

(** ** [Map]: keyed by string, iterated in insertion order *)

Module JSMap.
Section Defs.
Context {V : Type}.

Definition t := list (string * V).

Definition empty : t := [].

Fixpoint get (m : t) (k : string) : option V :=
  match m with
  | [] => None
  | (k', v) :: m' => if String.eqb k k' then Some v else get m' k
  end.

Definition has (m : t) (k : string) : bool :=
  match get m k with Some _ => true | None => false end.

(** [m.set(k, v)]: an existing key keeps its place in the iteration
    order; a new key goes to the end. *)
Fixpoint set (m : t) (k : string) (v : V) : t :=
  match m with
  | [] => [(k, v)]
  | (k', v') :: m' =>
      if String.eqb k k' then (k, v) :: m' else (k', v') :: set m' k v
  end.

(** The map after [m.delete(k)]; the call itself returns [has m k]. *)
Fixpoint remove (m : t) (k : string) : t :=
  match m with
  | [] => []
  | (k', v') :: m' =>
      if String.eqb k k' then remove m' k else (k', v') :: remove m' k
  end.

Definition keys (m : t) : list string := map fst m.
Definition values (m : t) : list V := map snd m.

(** Keys of a [Map] are pairwise distinct. *)
Definition wf (m : t) : Prop := NoDup (keys m).
End Defs.
Arguments t : clear implicits.
End JSMap.

(** ** Errors, exceptions and the monad of async methods *)

(** [utils/AppError] is not among the sources; it is used only through
    [new AppError(message, statusCode)] and [error.message]. *)
Record AppError := mkAppError { message : string; statusCode : Z }.

(** What a [throw] carries: an [AppError] of the application or an [Error]
    raised by a library. *)
Inductive exn :=
| AppErr (e : AppError)
| JsError (msg : string).

Definition exn_message (e : exn) : string :=
  match e with
  | AppErr a => message a
  | JsError msg => msg
  end.

Inductive outcome (A : Type) :=
| Returns (a : A)
| Throws (e : exn).
Arguments Returns {A} a.
Arguments Throws {A} e.

Definition M (S A : Type) : Type := S -> S * outcome A.

Definition ret {S A} (a : A) : M S A := fun s => (s, Returns a).
Definition throw {S A} (e : exn) : M S A := fun s => (s, Throws e).
Definition bind {S A B} (c : M S A) (k : A -> M S B) : M S B :=
  fun s =>
    match c s with
    | (s', Returns a) => k a s'
    | (s', Throws e) => (s', Throws e)
    end.
Definition try_catch {S A} (body : M S A) (handler : exn -> M S A) : M S A :=
  fun s =>
    match body s with
    | (s', Returns a) => (s', Returns a)
    | (s', Throws e) => handler e s'
    end.
Definition gets {S A} (f : S -> A) : M S A := fun s => (s, Returns (f s)).
Definition modify {S} (f : S -> S) : M S unit := fun s => (f s, Returns tt).

(** Run a computation on a component of a larger state. *)
Definition zoom {S T A} (proj : T -> S) (upd : S -> T -> T) (c : M S A) : M T A :=
  fun t => let (s', r) := c (proj t) in (upd s' t, r).

Notation "'let*' x ':=' c 'in' k" := (bind c (fun x => k))
  (at level 10, x name, c at level 100, k at level 200).
Notation "c ';;;' k" := (bind c (fun _ => k))
  (at level 100, k at level 200, right associativity).

(** The result of an external call, turned into a computation. *)
Definition answer {S A} (o : outcome A) : M S A :=
  match o with
  | Returns a => ret a
  | Throws e => throw e
  end.

(** ** The metadata index: [FileService] *)

Inductive maybe_date :=
| Undefined
| Null
| DateAt (t : Z).

(** A file record, and also the [metadata] object handed to
    [saveFileMetadata]: the last four properties may be absent. *)
Record FileRecord := mkFileRecord {
  fileId : string;
  originalName : string;
  mimeType : string;
  size : Z;
  s3Key : string;
  s3Location : string;
  userId : string;
  uploadedAt : Z;
  createdAt : option Z;
  updatedAt : option Z;
  accessCount : option Z;
  lastAccessed : maybe_date
}.

(** Property assignment, and the overriding entries of an object spread. *)
Definition set_createdAt (v : option Z) (r : FileRecord) : FileRecord :=
  mkFileRecord (fileId r) (originalName r) (mimeType r) (size r) (s3Key r)
    (s3Location r) (userId r) (uploadedAt r)
    v (updatedAt r) (accessCount r) (lastAccessed r).
Definition set_updatedAt (v : option Z) (r : FileRecord) : FileRecord :=
  mkFileRecord (fileId r) (originalName r) (mimeType r) (size r) (s3Key r)
    (s3Location r) (userId r) (uploadedAt r)
    (createdAt r) v (accessCount r) (lastAccessed r).
Definition set_accessCount (v : option Z) (r : FileRecord) : FileRecord :=
  mkFileRecord (fileId r) (originalName r) (mimeType r) (size r) (s3Key r)
    (s3Location r) (userId r) (uploadedAt r)
    (createdAt r) (updatedAt r) v (lastAccessed r).
Definition set_lastAccessed (v : maybe_date) (r : FileRecord) : FileRecord :=
  mkFileRecord (fileId r) (originalName r) (mimeType r) (size r) (s3Key r)
    (s3Location r) (userId r) (uploadedAt r)
    (createdAt r) (updatedAt r) (accessCount r) v.

Record ShareActivityEntry := mkShare {
  sharedAt : Z;
  expiresIn : Z;
  expiresAt : Z
}.

(** [accessStats] is declared and cleared on delete but never written. *)
Record FileService := mkFileService {
  files : JSMap.t FileRecord;
  accessStats : JSMap.t unit;
  shareActivity : JSMap.t (list ShareActivityEntry)
}.

Definition new_FileService : FileService :=
  mkFileService JSMap.empty JSMap.empty JSMap.empty.

Definition set_files (f : JSMap.t FileRecord) (st : FileService) : FileService :=
  mkFileService f (accessStats st) (shareActivity st).
Definition set_accessStats (a : JSMap.t unit) (st : FileService) : FileService :=
  mkFileService (files st) a (shareActivity st).
Definition set_shareActivity (a : JSMap.t (list ShareActivityEntry))
    (st : FileService) : FileService :=
  mkFileService (files st) (accessStats st) a.

Definition internal (msg : string) : exn := AppErr (mkAppError msg 500).

(** [saveFileMetadata(metadata)]; [tc] and [tu] are the two clock readings. *)
Definition saveFileMetadata (tc tu : Z) (metadata : FileRecord)
    : M FileService FileRecord :=
  try_catch
    (let fileRecord :=
       set_lastAccessed Null
         (set_accessCount (Some 0)
            (set_updatedAt (Some tu)
               (set_createdAt (Some tc) metadata))) in
     modify (fun st => set_files (JSMap.set (files st) (fileId metadata) fileRecord) st) ;;;
     ret fileRecord)
    (fun error => throw (internal "Failed to save file metadata")).

(** [getFileMetadata(fileId)]: [None] is the [null] of the source. *)
Definition getFileMetadata (id : string) : M FileService (option FileRecord) :=
  try_catch
    (let* metadata := gets (fun st => JSMap.get (files st) id) in
     match metadata with
     | None => ret None
     | Some m => ret (Some m)
     end)
    (fun error => throw (internal "Failed to get file metadata")).

(** [updateAccessStats(fileId)]; [ta] and [tu] are the two clock readings. *)
Definition updateAccessStats (ta tu : Z) (id : string) : M FileService unit :=
  try_catch
    (let* metadata := gets (fun st => JSMap.get (files st) id) in
     match metadata with
     | Some metadata =>
         let metadata := set_accessCount (Some (JS.or_zero (accessCount metadata) + 1)) metadata in
         let metadata := set_lastAccessed (DateAt ta) metadata in
         let metadata := set_updatedAt (Some tu) metadata in
         modify (fun st => set_files (JSMap.set (files st) id metadata) st)
     | None => ret tt
     end)
    (fun error => ret tt).

(** [deleteFileMetadata(fileId)] *)
Definition deleteFileMetadata (id : string) : M FileService bool :=
  try_catch
    (let* deleted := gets (fun st => JSMap.has (files st) id) in
     modify (fun st => set_files (JSMap.remove (files st) id) st) ;;;
     modify (fun st => set_accessStats (JSMap.remove (accessStats st) id) st) ;;;
     modify (fun st => set_shareActivity (JSMap.remove (shareActivity st) id) st) ;;;
     ret deleted)
    (fun error => throw (internal "Failed to delete file metadata")).

(** [logShareActivity(fileId, expiresIn)]; [t1] is [new Date()], [t2] is
    [Date.now()]. The caller's [expiresIn] enters through its numeric
    value. *)
Definition logShareActivity (t1 t2 : Z) (id : string) (expires : Z)
    : M FileService unit :=
  try_catch
    (let* activity :=
       gets (fun st => match JSMap.get (shareActivity st) id with
                       | Some a => a
                       | None => []
                       end) in
     let activity :=
       activity ++ [mkShare t1 expires (t2 + expires * 1000)] in
     modify (fun st => set_shareActivity (JSMap.set (shareActivity st) id activity) st))
    (fun error => ret tt).

(** One entry of a listing, as [listFiles] projects a record. *)
Module Item.
Record t := mk {
  fileId : string;
  filename : string;
  mimeType : string;
  size : Z;
  uploadedAt : Z;
  accessCount : Z;
  lastAccessed : maybe_date
}.
End Item.

Record ListOptions := mkListOptions {
  page : option Z;
  limit : option Z;
  type : option string;
  search : option string
}.

Record Listing := mkListing {
  l_files : list Item.t;
  l_page : Z;
  l_limit : Z;
  total : Z;
  pages : JS.jsnum;
  hasNext : bool;
  hasPrev : bool
}.

Definition item_of (file : FileRecord) : Item.t :=
  Item.mk (fileId file) (originalName file) (mimeType file) (size file)
    (uploadedAt file) (JS.or_zero (accessCount file)) (lastAccessed file).

(** The comparator of the listing: [new Date(b.uploadedAt) - new Date(a.uploadedAt)]. *)
Definition newest_first (a b : FileRecord) : Z := uploadedAt b - uploadedAt a.

Section Listing.
(** [String.prototype.toLowerCase] of the host. *)
Variable toLowerCase : string -> string.

Definition filter_type (ty : option string) (l : list FileRecord) : list FileRecord :=
  match ty with
  | Some t =>
      if JS.truthy_str ty
      then List.filter (fun file => JS.includes (mimeType file) t) l
      else l
  | None => l
  end.

Definition filter_search (se : option string) (l : list FileRecord) : list FileRecord :=
  match se with
  | Some s =>
      if JS.truthy_str se
      then
        let searchLower := toLowerCase s in
        List.filter
          (fun file => JS.includes (toLowerCase (originalName file)) searchLower) l
      else l
  | None => l
  end.

(** The array of [listFiles] after both filters and the sort. *)
Definition listed (o : ListOptions) (st : FileService) : list FileRecord :=
  JS.sort newest_first
    (filter_search (search o) (filter_type (type o) (JSMap.values (files st)))).

(** [listFiles({ page = 1, limit = 20, type, search })] *)
Definition listFiles (o : ListOptions) : M FileService Listing :=
  try_catch
    (let page := default 1 (page o) in
     let limit := default 20 (limit o) in
     let* all := gets (fun st => JSMap.values (files st)) in
     let all := filter_type (type o) all in
     let all := filter_search (search o) all in
     let all := JS.sort newest_first all in
     let total := Z.of_nat (length all) in
     let startIndex := (page - 1) * limit in
     let endIndex := startIndex + limit in
     let paginatedFiles := JS.slice all startIndex endIndex in
     let pages := JS.ceil_div total limit in
     ret (mkListing (map item_of paginatedFiles) page limit total pages
            (JS.lt_num page pages) (1 <? page)))
    (fun error => throw (internal "Failed to list files")).
End Listing.

(** [getFileCategory(mimeType)] *)
Definition getFileCategory (mimeType : string) : string :=
  if JS.startsWith mimeType "image/" then "images"
  else if JS.startsWith mimeType "video/" then "videos"
  else if JS.startsWith mimeType "audio/" then "audio"
  else if JS.includes mimeType "pdf" then "documents"
  else if JS.includes mimeType "text/" then "text"
  else if JS.includes mimeType "application/" then "applications"
  else "other".

Record Stats := mkStats {
  totalFiles : Z;
  totalSize : Z;
  totalAccesses : Z;
  recentUploads : Z;
  byType : gmap string Z;
  storageByType : gmap string Z;
  avgFileSize : Z;
  accessesPerFile : Z;
  timestamp : Z
}.

(** [getUploadStats()]; [now] is [Date.now()], [stamp] the later [new Date()]. *)
Definition getUploadStats (now stamp : Z) : M FileService Stats :=
  try_catch
    (let* all := gets (fun st => JSMap.values (files st)) in
     let totalFiles := Z.of_nat (length all) in
     let totalSize := fold_left (fun sum file => sum + JS.or_num (size file) 0) all 0 in
     let totalAccesses :=
       fold_left (fun sum file => sum + JS.or_zero (accessCount file)) all 0 in
     let typeDistribution :=
       fold_left
         (fun (acc : gmap string Z) file =>
            let category := getFileCategory (mimeType file) in
            <[category := JS.or_zero (acc !! category) + 1]> acc)
         all ∅ in
     let oneDayAgo := now - 24 * 60 * 60 * 1000 in
     let recentUploads :=
       Z.of_nat (length (List.filter (fun file => oneDayAgo <? uploadedAt file) all)) in
     let storageByType :=
       fold_left
         (fun (acc : gmap string Z) file =>
            let category := getFileCategory (mimeType file) in
            <[category := JS.or_zero (acc !! category) + size file]> acc)
         all ∅ in
     ret (mkStats totalFiles totalSize totalAccesses recentUploads
            typeDistribution storageByType
            (if 0 <? totalFiles then JS.round_div totalSize totalFiles else 0)
            (if 0 <? totalFiles then JS.round_div totalAccesses totalFiles else 0)
            stamp))
    (fun error => throw (internal "Failed to get upload statistics")).

(** ** The object store side: [S3Service] *)

(** A file as multer stages it on disk. *)
Module Multer.
Record File := mk {
  path : string;
  mimetype : string;
  originalname : string;
  size : Z
}.
End Multer.

Inductive Body :=
| Stream (path : string)
| Buffer (bytes : string).

(** The parameters of [s3.upload], which are also what the bucket holds
    under [Key] afterwards. *)
Record S3Object := mkS3Object {
  Bucket : string;
  Key : string;
  Body_ : Body;
  ContentType : string;
  ServerSideEncryption : string;
  md_user_id : string;
  md_file_id : string;
  md_original_name : string;
  md_upload_timestamp : Z;
  Tagging : string
}.

Record UploadResult := mkUploadResult {
  key : string;
  location : string;
  etag : string;
  bucket : string
}.

(** The answers of the outside world during one pipeline run. *)
Record Env := mkEnv {
  uuid : string;                       (* uuidv4() *)
  sniffed : outcome (option string);   (* FileType.fromFile: the mime found, if any *)
  optimized : outcome string;          (* sharp(...).toBuffer() *)
  stored : outcome (string * string);  (* s3.upload: Location and ETag *)
  signed : outcome string;             (* s3.getSignedUrlPromise *)
  t_tag : Z;                           (* the clock, read four times *)
  t_uploaded : Z;
  t_created : Z;
  t_updated : Z
}.

(** The bucket: objects by key. *)
Abbreviation S3 := (gmap string S3Object).

(** [s3.upload(params).promise()]: either the object is stored under its
    key and the key, location and tag come back, or the call fails and
    the bucket is as before. *)
Definition s3_upload (env : Env) (params : S3Object)
    : M S3 (string * string * string) :=
  match stored env with
  | Returns (loc, tag) =>
      modify (fun objs : S3 => <[Key params := params]> objs) ;;;
      ret (Key params, loc, tag)
  | Throws e => throw e
  end.

Section S3Service.
(** [process.env.S3_BUCKET] and [process.env.NODE_ENV] *)
Variable S3_BUCKET : string.
Variable NODE_ENV : option string.

Definition environment : string :=
  match NODE_ENV with
  | Some e => if JS.truthy_str NODE_ENV then e else "development"
  | None => "development"
  end.

(** [uploadFile({ file, fileId, userId })] *)
Definition uploadFile (env : Env) (file : Multer.File) (fileId userId : string)
    : M S3 UploadResult :=
  try_catch
    (let* fileTypeResult := answer (sniffed env) in
     match fileTypeResult with
     | Some mime =>
         if negb (String.eqb mime (Multer.mimetype file))
         then throw (AppErr (mkAppError "File type validation failed" 400))
         else ret tt
     | None => ret tt
     end ;;;
     let key :=
       "uploads/" +:+ userId +:+ "/" +:+ fileId +:+ "-" +:+ Multer.originalname file in
     let fileStream := Stream (Multer.path file) in
     let contentType := Multer.mimetype file in
     let* fileStream :=
       if JS.startsWith (Multer.mimetype file) "image/"
          && negb (String.eqb (Multer.mimetype file) "image/gif")
       then
         try_catch
           (let* optimizedBuffer := answer (optimized env) in
            ret (Buffer optimizedBuffer))
           (fun optimizeError => ret fileStream)
       else ret fileStream in
     let uploadParams :=
       mkS3Object S3_BUCKET key fileStream contentType "AES256"
         userId fileId (Multer.originalname file) (t_tag env)
         ("Environment=" +:+ environment +:+ "&UserId=" +:+ userId
            +:+ "&FileId=" +:+ fileId) in
     let* result := s3_upload env uploadParams in
     ret (mkUploadResult result.1.1 result.1.2 result.2 S3_BUCKET))
    (fun error =>
       throw (AppErr (mkAppError ("File upload failed: " +:+ exn_message error) 500))).

(** [getPresignedUrl(key, expiresIn = 3600, forceDownload = false)] *)
Definition getPresignedUrl (env : Env) (key : string) (expiresIn : Z)
    (forceDownload : bool) : M S3 string :=
  try_catch
    (let* url := answer (signed env) in
     ret url)
    (fun error =>
       throw (AppErr (mkAppError
                        ("Failed to generate access URL: " +:+ exn_message error) 500))).
End S3Service.

(** ** The upload controller *)

(** The server: the metadata index, the bucket, and the staged temp files. *)
Record World := mkWorld {
  service : FileService;
  s3 : S3;
  staged : gset string
}.

Definition set_service (x : FileService) (w : World) : World :=
  mkWorld x (s3 w) (staged w).
Definition set_s3 (x : S3) (w : World) : World :=
  mkWorld (service w) x (staged w).
Definition set_staged (x : gset string) (w : World) : World :=
  mkWorld (service w) (s3 w) x.

Definition fileService {A} (c : M FileService A) : M World A := zoom service set_service c.
Definition s3Service {A} (c : M S3 A) : M World A := zoom s3 set_s3 c.

(** [fs.unlink(path)] *)
Definition unlink (path : string) : M World unit :=
  let* present := gets (fun w => bool_decide (path ∈ staged w)) in
  if present : bool
  then modify (fun w => set_staged (staged w ∖ {[ path ]}) w)
  else throw (JsError ("ENOENT: no such file or directory, unlink '" +:+ path +:+ "'")).

(** [try { await fs.unlink(path) } catch (cleanupError) { logger.warn(...) }] *)
Definition cleanup (path : string) : M World unit :=
  try_catch (unlink path) (fun cleanupError => ret tt).

Module Req.
Record t := mk {
  file : option Multer.File;
  files : option (list Multer.File);
  userId : option string
}.
End Req.

(** [req.userId || 'anonymous'] *)
Definition owner (req : Req.t) : string :=
  match Req.userId req with
  | Some u => if JS.truthy_str (Req.userId req) then u else "anonymous"
  | None => "anonymous"
  end.

Module Uploaded.
Record t := mk {
  fileId : string;
  filename : string;
  mimeType : string;
  size : Z;
  url : string;
  presignedUrl : string;
  uploadedAt : Z
}.
End Uploaded.

Module Failed.
Record t := mk {
  filename : string;
  error : string
}.
End Failed.

Record Summary := mkSummary {
  sum_total : Z;
  successful : Z;
  failed_count : Z
}.

Record BatchOutcome := mkBatchOutcome {
  uploaded : list Uploaded.t;
  failed : list Failed.t;
  summary : Summary
}.

(** What the handler does with the request in the end:
    [res.status(s).json(...)] or [next(error)]. *)
Inductive Response (A : Type) :=
| Json (status : Z) (data : A)
| Next (error : exn).
Arguments Json {A} status data.
Arguments Next {A} error.

(** The metadata object both handlers build for [saveFileMetadata]. *)
Definition metadata_of (env : Env) (req : Req.t) (file : Multer.File)
    (result : UploadResult) : FileRecord :=
  mkFileRecord (uuid env) (Multer.originalname file) (Multer.mimetype file)
    (Multer.size file) (key result) (location result) (owner req) (t_uploaded env)
    None None None Undefined.

Section UploadController.
Variable S3_BUCKET : string.
Variable NODE_ENV : option string.

(** [uploadSingle(req, res, next)] *)
Definition uploadSingle (env : Env) (req : Req.t) : M World (Response Uploaded.t) :=
  try_catch
    (let* file :=
       match Req.file req with
       | None => throw (AppErr (mkAppError "No file provided" 400))
       | Some f => ret f
       end in
     let fileId := uuid env in
     let* result :=
       s3Service (uploadFile S3_BUCKET NODE_ENV env file fileId (owner req)) in
     let* fileMetadata :=
       fileService (saveFileMetadata (t_created env) (t_updated env)
                      (metadata_of env req file result)) in
     cleanup (Multer.path file) ;;;
     let* presignedUrl := s3Service (getPresignedUrl env (key result) 3600 false) in
     ret (Json 201
            (Uploaded.mk fileId (Multer.originalname file) (Multer.mimetype file)
               (Multer.size file) (location result) presignedUrl
               (uploadedAt fileMetadata))))
    (fun error =>
       match Req.file req with
       | Some f =>
           if negb (String.eqb (Multer.path f) EmptyString)
           then cleanup (Multer.path f)
           else ret tt
       | None => ret tt
       end ;;;
       ret (Next error)).

(** The state of [uploadMultiple] while it runs: the server and the two
    arrays the loop pushes to. *)
Record Batch := mkBatch {
  world : World;
  uploadedFiles : list Uploaded.t;
  failedFiles : list Failed.t
}.

Definition set_world (w : World) (b : Batch) : Batch :=
  mkBatch w (uploadedFiles b) (failedFiles b).
Definition server {A} (c : M World A) : M Batch A := zoom world set_world c.
Definition push_uploaded (u : Uploaded.t) : M Batch unit :=
  modify (fun b => mkBatch (world b) (uploadedFiles b ++ [u]) (failedFiles b)).
Definition push_failed (f : Failed.t) : M Batch unit :=
  modify (fun b => mkBatch (world b) (uploadedFiles b) (failedFiles b ++ [f])).

(** One turn of [for (const file of req.files)]. *)
Definition upload_one (env : Env) (req : Req.t) (file : Multer.File) : M Batch unit :=
  try_catch
    (let fileId := uuid env in
     let* result :=
       server (s3Service (uploadFile S3_BUCKET NODE_ENV env file fileId (owner req))) in
     let* fileMetadata :=
       server (fileService (saveFileMetadata (t_created env) (t_updated env)
                              (metadata_of env req file result))) in
     let* presignedUrl :=
       server (s3Service (getPresignedUrl env (key result) 3600 false)) in
     push_uploaded
       (Uploaded.mk fileId (Multer.originalname file) (Multer.mimetype file)
          (Multer.size file) (location result) presignedUrl
          (uploadedAt fileMetadata)) ;;;
     server (cleanup (Multer.path file)))
    (fun fileError =>
       push_failed (Failed.mk (Multer.originalname file) (exn_message fileError)) ;;;
       server (cleanup (Multer.path file))).

(** The loop; [envs i] is what the world answers to the [i]-th file. *)
Fixpoint upload_each (envs : nat -> Env) (i : nat) (req : Req.t)
    (l : list Multer.File) : M Batch unit :=
  match l with
  | [] => ret tt
  | file :: rest =>
      upload_one (envs i) req file ;;;
      upload_each envs (S i) req rest
  end.

Fixpoint cleanup_all (l : list Multer.File) : M Batch unit :=
  match l with
  | [] => ret tt
  | file :: rest => server (cleanup (Multer.path file)) ;;; cleanup_all rest
  end.

(** The body of [uploadMultiple] from [try] on, over the two arrays. *)
Definition uploadMultiple_body (envs : nat -> Env) (req : Req.t)
    : M Batch (Response BatchOutcome) :=
  try_catch
    (let* l :=
       match Req.files req with
       | None => throw (AppErr (mkAppError "No files provided" 400))
       | Some [] => throw (AppErr (mkAppError "No files provided" 400))
       | Some l => ret l
       end in
     upload_each envs 0 req l ;;;
     let* uploadedFiles := gets uploadedFiles in
     let* failedFiles := gets failedFiles in
     ret (Json 201
            (mkBatchOutcome uploadedFiles failedFiles
               (mkSummary (Z.of_nat (length l))
                  (Z.of_nat (length uploadedFiles))
                  (Z.of_nat (length failedFiles))))))
    (fun error =>
       match Req.files req with
       | Some l => cleanup_all l
       | None => ret tt
       end ;;;
       ret (Next error)).

(** [uploadMultiple(req, res, next)] *)
Definition uploadMultiple (envs : nat -> Env) (req : Req.t)
    : M World (Response BatchOutcome) :=
  fun w =>
    let (b, r) := uploadMultiple_body envs req (mkBatch w [] []) in
    (world b, r).
End UploadController.


(** ** Derived notions used by the statements *)

(** [k] calls of [updateAccessStats] in a row on one id, one pair of clock
    readings per call. *)
Fixpoint visits (ts : list (Z * Z)) (id : string) (st : FileService) : FileService :=
  match ts with
  | [] => st
  | (ta, tu) :: ts' => visits ts' id (updateAccessStats ta tu id st).1
  end.

(** The count a record reports: [file.accessCount || 0]. *)
Definition count_of (r : FileRecord) : Z := JS.or_zero (accessCount r).

(** An error a client is answered with a 4xx status for. *)
Definition client_error (e : exn) : Prop :=
  match e with
  | AppErr a => 400 <= statusCode a < 500
  | JsError _ => False
  end.

(** Every map of the service has pairwise distinct keys. *)
Definition service_wf (st : FileService) : Prop :=
  JSMap.wf (files st) ∧ JSMap.wf (accessStats st) ∧ JSMap.wf (shareActivity st).

(** Sample data. *)
Definition notes : FileRecord :=
  mkFileRecord "f-1" "notes.txt" "text/plain" 10 "uploads/anonymous/f-1-notes.txt"
    "https://bucket/uploads/anonymous/f-1-notes.txt" "anonymous" 1000
    None None None Undefined.

Definition notes_again : FileRecord :=
  mkFileRecord "f-1" "other.pdf" "application/pdf" 77 "uploads/anonymous/f-1-other.pdf"
    "https://bucket/uploads/anonymous/f-1-other.pdf" "anonymous" 2000
    None None (Some 9) (DateAt 5).

Definition with_notes : FileService := (saveFileMetadata 1000 1000 notes new_FileService).1.

(** The two filters of [listFiles] as one predicate. *)
Definition matches (toLowerCase : string -> string) (o : ListOptions)
    (file : FileRecord) : bool :=
  (match type o with
   | Some t => if JS.truthy_str (type o) then JS.includes (mimeType file) t else true
   | None => true
   end) &&
  (match search o with
   | Some s =>
       if JS.truthy_str (search o)
       then JS.includes (toLowerCase (originalName file)) (toLowerCase s)
       else true
   | None => true
   end).

(** The items [listFiles] answers for page [p], the other options fixed. *)
Definition page_items (toLowerCase : string -> string) (o : ListOptions)
    (st : FileService) (p : Z) : list Item.t :=
  match (listFiles toLowerCase (mkListOptions (Some p) (limit o) (type o) (search o)) st).2 with
  | Returns r => l_files r
  | Throws _ => []
  end.

(** Records with the time stamp [t], in the order of the list. *)
Definition uploaded_at (t : Z) (l : list FileRecord) : list FileRecord :=
  List.filter (fun file => uploadedAt file =? t) l.

(** Newest first. *)
Definition newer_or_same (a b : FileRecord) : Prop := uploadedAt b <= uploadedAt a.

(** The page and the limit a call works with: [{ page = 1, limit = 20 }]. *)
Definition page_asked (o : ListOptions) : Z := default 1 (page o).
Definition limit_asked (o : ListOptions) : Z := default 20 (limit o).

(** The records that pass the filters, in the iteration order of the map. *)
Definition kept (toLowerCase : string -> string) (o : ListOptions)
    (st : FileService) : list FileRecord :=
  List.filter (matches toLowerCase o) (JSMap.values (files st)).

(** Whether the type check of [uploadFile] lets a file through. *)
Definition type_ok (env : Env) (file : Multer.File) : bool :=
  match sniffed env with
  | Returns (Some mime) => String.eqb mime (Multer.mimetype file)
  | Returns None => true
  | Throws _ => false
  end.

Definition returns {A} (o : outcome A) : bool :=
  match o with
  | Returns _ => true
  | Throws _ => false
  end.

(** Whether one file gets through its own pipeline run: type check,
    upload, signed URL. *)
Definition ingested (job : Env * Multer.File) : bool :=
  type_ok job.1 job.2 && returns (stored job.1) && returns (signed job.1).

(** The files of a batch, each with the answers its own run gets. *)
Fixpoint jobs (envs : nat -> Env) (i : nat) (l : list Multer.File)
    : list (Env * Multer.File) :=
  match l with
  | [] => []
  | file :: rest => (envs i, file) :: jobs envs (S i) rest
  end.

Definition name_of (job : Env * Multer.File) : string := Multer.originalname job.2.

(** The key [uploadFile] stores a file under. *)
Definition key_of (userId fileId : string) (file : Multer.File) : string :=
  "uploads/" +:+ userId +:+ "/" +:+ fileId +:+ "-" +:+ Multer.originalname file.

(** More sample data. *)
Definition lower_char (c : ascii) : ascii :=
  let n := nat_of_ascii c in
  if (65 <=? n)%nat && (n <=? 90)%nat then ascii_of_nat (n + 32) else c.

Fixpoint lower (s : string) : string :=
  match s with
  | EmptyString => EmptyString
  | String c s' => String (lower_char c) (lower s')
  end.

Definition record_at (id name mime : string) (sz t : Z) : FileRecord :=
  mkFileRecord id name mime sz ("uploads/anonymous/" +:+ id +:+ "-" +:+ name)
    ("https://bucket/" +:+ id) "anonymous" t None None None Undefined.

Definition three_files : FileService :=
  let st := (saveFileMetadata 1000 1000 (record_at "a" "Notes.txt" "text/plain" 10 1000)
               new_FileService).1 in
  let st := (saveFileMetadata 3000 3000 (record_at "b" "cat.png" "image/png" 2048 3000) st).1 in
  (saveFileMetadata 3001 3001 (record_at "c" "notes-2.txt" "text/plain" 20 3000) st).1.

Definition second_page_of_two : ListOptions := mkListOptions (Some 2) (Some 2) None None.

Definition png_upload : Multer.File :=
  Multer.mk "/app/uploads/file-1" "image/png" "report.png" 4096.

Definition text_upload : Multer.File :=
  Multer.mk "/app/uploads/file-2" "text/plain" "notes.txt" 10.

(** A file name with directory parts and a control character (a tab). *)
Definition odd_upload : Multer.File :=
  Multer.mk "/app/uploads/file-3" "text/plain"
    ("../../etc/" +:+ String "009"%char "passwd") 10.

(** The sniffer finds a PDF; store and signer would work. *)
Definition finds_pdf : Env :=
  mkEnv "id-1" (Returns (Some "application/pdf")) (Throws (JsError "unsupported image"))
    (Returns ("https://bucket/loc", "etag")) (Returns "https://signed") 100 101 102 103.

(** The sniffer finds nothing to object to; store and signer work. *)
Definition all_fine : Env :=
  mkEnv "id-2" (Returns None) (Throws (JsError "unsupported image"))
    (Returns ("https://bucket/loc", "etag")) (Returns "https://signed") 200 201 202 203.

Definition anonymous_single (file : Multer.File) : Req.t := Req.mk (Some file) None None.
Definition anonymous_batch (l : list Multer.File) : Req.t := Req.mk None (Some l) None.

Definition empty_world : World := mkWorld new_FileService ∅ ∅.

(** A batch of three whose second file fails the type check. *)
Definition second_fails (i : nat) : Env :=
  match i with
  | 1%nat => finds_pdf
  | _ => all_fine
  end.

(** ** The index as a state machine *)

(** The calls by which the handlers change the service. *)
Inductive call :=
| Save (tc tu : Z) (metadata : FileRecord)
| Access (ta tu : Z) (id : string)
| Delete (id : string)
| Share (t1 t2 : Z) (id : string) (expires : Z).

Definition after (c : call) (st : FileService) : FileService :=
  match c with
  | Save tc tu metadata => (saveFileMetadata tc tu metadata st).1
  | Access ta tu id => (updateAccessStats ta tu id st).1
  | Delete id => (deleteFileMetadata id st).1
  | Share t1 t2 id expires => (logShareActivity t1 t2 id expires st).1
  end.

(** The states the service can be in: those a sequence of calls leads to
    from the freshly constructed one. *)
Inductive reachable : FileService -> Prop :=
| reachable_new : reachable new_FileService
| reachable_after c st : reachable st -> reachable (after c st).

(** What holds of every stored record. *)
Definition record_ok (k : string) (r : FileRecord) : Prop :=
  fileId r = k ∧
  (∃ n, accessCount r = Some n ∧ 0 <= n) ∧
  createdAt r ≠ None ∧
  updatedAt r ≠ None ∧
  lastAccessed r ≠ Undefined.

Definition index_ok (st : FileService) : Prop :=
  service_wf st ∧
  ∀ k r, JSMap.get (files st) k = Some r → record_ok k r.

(** Fifteen records, uploaded one per second. *)
Definition fifteen_files : FileService :=
  fold_left
    (fun st (i : nat) =>
       (saveFileMetadata 0 0
          (record_at (String (ascii_of_nat (65 + i)) EmptyString) "file.txt" "text/plain" 1
             (Z.of_nat i * 1000)) st).1)
    (seq 0 15) new_FileService.

(** ** The rest of [FileService] *)






(** The categories [getFileCategory] can answer. *)
Definition categories : list string :=
  ["images"; "videos"; "audio"; "documents"; "text"; "applications"; "other"].

(** The records of one category, in the order of the list. *)
Definition in_category (c : string) (l : list FileRecord) : list FileRecord :=
  List.filter (fun file => String.eqb (getFileCategory (mimeType file)) c) l.

Definition sum_of (g : FileRecord -> Z) (l : list FileRecord) : Z :=
  fold_right (fun file acc => g file + acc) 0 l.

(** The sum of [h] over the seven categories. *)
Definition over_categories (h : string -> Z) : Z :=
  fold_right (fun c acc => h c + acc) 0 categories.

(** An entry of a tally object: there once a record was counted. *)
Definition tallied (n : nat) (v : Z) : option Z :=
  match n with
  | O => None
  | S _ => Some v
  end.

(** The statistics of a state, when [getUploadStats] returns them. *)
Definition stats_of (now stamp : Z) (st : FileService) : option Stats :=
  match (getUploadStats now stamp st).2 with
  | Returns s => Some s
  | Throws _ => None
  end.

(** ** The rest of [S3Service] *)

(** An error of the AWS client, with the [code] the service looks at. *)
Record AwsError := mkAwsError {
  aws_code : string;
  aws_message : string
}.

Inductive aws_reply (A : Type) :=
| AwsOk (a : A)
| AwsFail (e : AwsError).
Arguments AwsOk {A} a.
Arguments AwsFail {A} e.

(** What [s3.headObject] resolves with. *)
Record Head := mkHead {
  ContentLength : Z;
  LastModified : Z;
  head_ContentType : string;
  ETag : string;
  Metadata : list (string * string)
}.

Module S3Store.
(** The object [getFileMetadata] of the S3 service returns. *)
Record Info := mkInfo {
  size : Z;
  lastModified : Z;
  contentType : string;
  etag : string;
  metadata : list (string * string)
}.

(** [getFileMetadata(key)] of the S3 service; [None] is [null]. *)
Definition getFileMetadata (reply : aws_reply Head) (key : string)
    : M S3 (option Info) :=
  match reply with
  | AwsOk result =>
      ret (Some (mkInfo (ContentLength result) (LastModified result)
                   (head_ContentType result) (ETag result) (Metadata result)))
  | AwsFail error =>
      if String.eqb (aws_code error) "NotFound"
      then ret None
      else throw (AppErr (mkAppError
                            ("Failed to get file metadata: " +:+ aws_message error) 500))
  end.
End S3Store.


(** [s3.deleteObject(params).promise()]: the key is gone afterwards, or
    the call fails and the bucket is as before. *)
Definition s3_deleteObject (reply : outcome unit) (key : string) : M S3 unit :=
  match reply with
  | Returns _ => modify (fun objs : S3 => delete key objs)
  | Throws e => throw e
  end.

(** [deleteFile(key)] *)
Definition deleteFile (reply : outcome unit) (key : string) : M S3 bool :=
  try_catch
    (s3_deleteObject reply key ;;;
     ret true)
    (fun error =>
       throw (AppErr (mkAppError ("File deletion failed: " +:+ exn_message error) 500))).

(** [getPresignedUploadUrl({ key, contentType, expiresIn = 3600 })] *)
Definition getPresignedUploadUrl (reply : outcome string) (key contentType : string)
    (expiresIn : Z) : M S3 string :=
  try_catch
    (let* url := answer reply in
     ret url)
    (fun error =>
       throw (AppErr (mkAppError
                        ("Failed to generate upload URL: " +:+ exn_message error) 500))).

(** ** The file controller *)

(** The request of the file routes: the id of the path, and of the query
    the [download] flag as sent and the integer [expires] stands for (the
    routes admit integers only). *)
Module FileReq.
Record t := mk {
  fileId : string;
  download : option string;
  expires : option Z
}.
End FileReq.

Module FileInfo.
Record t := mk {
  fileId : string;
  filename : string;
  mimeType : string;
  size : Z;
  presignedUrl : string;
  expiresAt : Z;
  uploadedAt : Z
}.
End FileInfo.

Module Removed.
Record t := mk {
  fileId : string;
  deletedAt : Z
}.
End Removed.

Module Shared.
Record t := mk {
  fileId : string;
  filename : string;
  shareableUrl : string;
  expiresAt : Z;
  expiresIn : Z
}.
End Shared.

Definition not_found : exn := AppErr (mkAppError "File not found" 404).

Module FileController.
Section Handlers.
(** The signer's answer is [signed env]. *)
Variable env : Env.

(** [getFile(req, res, next)]; [ta], [tu] and [now] are clock readings. *)
Definition getFile (ta tu now : Z) (req : FileReq.t) : M World (Response FileInfo.t) :=
  try_catch
    (let fileId := FileReq.fileId req in
     let expires := default 3600 (FileReq.expires req) in
     let* fileMetadata := fileService (getFileMetadata fileId) in
     match fileMetadata with
     | None => throw not_found
     | Some fileMetadata =>
         let* presignedUrl :=
           s3Service (getPresignedUrl env (s3Key fileMetadata) expires
                        (bool_decide (FileReq.download req = Some "true"))) in
         fileService (updateAccessStats ta tu fileId) ;;;
         ret (Json 200
                (FileInfo.mk fileId (originalName fileMetadata) (mimeType fileMetadata)
                   (size fileMetadata) presignedUrl (now + expires * 1000)
                   (uploadedAt fileMetadata)))
     end)
    (fun error => ret (Next error)).

(** [deleteFile(req, res, next)]; [gone] is what the store answers. *)
Definition deleteFile (gone : outcome unit) (now : Z) (req : FileReq.t)
    : M World (Response Removed.t) :=
  try_catch
    (let fileId := FileReq.fileId req in
     let* fileMetadata := fileService (getFileMetadata fileId) in
     match fileMetadata with
     | None => throw not_found
     | Some fileMetadata =>
         s3Service (deleteFile gone (s3Key fileMetadata)) ;;;
         fileService (deleteFileMetadata fileId) ;;;
         ret (Json 200 (Removed.mk fileId now))
     end)
    (fun error => ret (Next error)).

(** [createShareableLink(req, res, next)]; [t1], [t2] are the clock
    readings of the log entry, [now] that of the answer. *)
Definition createShareableLink (t1 t2 now : Z) (req : FileReq.t)
    : M World (Response Shared.t) :=
  try_catch
    (let fileId := FileReq.fileId req in
     let expires := default 86400 (FileReq.expires req) in
     let* fileMetadata := fileService (getFileMetadata fileId) in
     match fileMetadata with
     | None => throw not_found
     | Some fileMetadata =>
         let* shareableUrl :=
           s3Service (getPresignedUrl env (s3Key fileMetadata) expires false) in
         fileService (logShareActivity t1 t2 fileId expires) ;;;
         ret (Json 200
                (Shared.mk fileId (originalName fileMetadata) shareableUrl
                   (now + expires * 1000) expires))
     end)
    (fun error => ret (Next error)).

(** [listFiles(req, res, next)]: the query of the route, parsed. *)
Definition listFiles (toLowerCase : string -> string) (query : ListOptions)
    : M World (Response Listing) :=
  try_catch
    (let options :=
       mkListOptions (Some (default 1 (page query))) (Some (default 20 (limit query)))
         (type query) (search query) in
     let* result := fileService (listFiles toLowerCase options) in
     ret (Json 200 result))
    (fun error => ret (Next error)).

(** [getFileMetadata(req, res, next)] *)
Definition getFileMetadata (req : FileReq.t) : M World (Response Item.t) :=
  try_catch
    (let fileId := FileReq.fileId req in
     let* fileMetadata := fileService (getFileMetadata fileId) in
     match fileMetadata with
     | None => throw not_found
     | Some fileMetadata =>
         ret (Json 200
                (Item.mk fileId (originalName fileMetadata) (mimeType fileMetadata)
                   (size fileMetadata) (uploadedAt fileMetadata)
                   (JS.or_zero (accessCount fileMetadata)) (lastAccessed fileMetadata)))
     end)
    (fun error => ret (Next error)).
End Handlers.
End FileController.

(** ** The rest of the upload controller *)

Module DirectReq.
Record t := mk {
  filename : option string;
  contentType : option string;
  expiresIn : option Z
}.
End DirectReq.

Module Direct.
Record t := mk {
  fileId : string;
  uploadUrl : string;
  key : string;
  expiresIn : Z
}.
End Direct.

Module UploadController.
(** [getPresignedUrl(req, res, next)] of the upload controller; [uuid] is
    what [uuidv4()] returns and [reply] what the signer answers. *)
Definition getPresignedUrl (uuid : string) (reply : outcome string) (req : DirectReq.t)
    : M World (Response Direct.t) :=
  try_catch
    (let expiresIn := default 3600 (DirectReq.expiresIn req) in
     match DirectReq.filename req, DirectReq.contentType req with
     | Some filename, Some contentType =>
         if negb (JS.truthy_str (Some filename)) || negb (JS.truthy_str (Some contentType))
         then throw (AppErr (mkAppError "Filename and contentType are required" 400))
         else
           let fileId := uuid in
           let key := "uploads/" +:+ fileId +:+ "-" +:+ filename in
           let* presignedUrl :=
             s3Service (getPresignedUploadUrl reply key contentType expiresIn) in
           ret (Json 200 (Direct.mk fileId presignedUrl key expiresIn))
     | _, _ => throw (AppErr (mkAppError "Filename and contentType are required" 400))
     end)
    (fun error => ret (Next error)).

(** [getUploadStats(req, res, next)] *)
Definition getUploadStats (now stamp : Z) : M World (Response Stats) :=
  try_catch
    (let* stats := fileService (getUploadStats now stamp) in
     ret (Json 200 stats))
    (fun error => ret (Next error)).
End UploadController.

(** The signer is down; the sniffer and the store work. *)
Definition signer_down : Env :=
  mkEnv "id-3" (Returns None) (Throws (JsError "unsupported image"))
    (Returns ("https://bucket/loc", "etag")) (Throws (JsError "no credentials"))
    300 301 302 303.

(** ** The upload routes: the file filter *)

(** [s.split(',')] *)
Fixpoint split_commas (s : string) : list string :=
  match s with
  | EmptyString => [EmptyString]
  | String c s' =>
      if Ascii.eqb c ","%char
      then EmptyString :: split_commas s'
      else match split_commas s' with
           | piece :: pieces => String c piece :: pieces
           | [] => [String c EmptyString]
           end
  end.

(** [l.join(',')] *)
Fixpoint join_commas (l : list string) : string :=
  match l with
  | [] => EmptyString
  | [piece] => piece
  | piece :: rest => piece +:+ "," +:+ join_commas rest
  end.

(** [process.env.ALLOWED_FILE_TYPES?.split(',') || [...]] *)
Definition allowedTypes (ALLOWED_FILE_TYPES : option string) : list string :=
  match ALLOWED_FILE_TYPES with
  | Some s => split_commas s
  | None =>
      ["image/jpeg"; "image/png"; "image/gif"; "image/webp"; "application/pdf";
       "text/plain"]
  end.

(** [fileFilter(req, file, cb)]: [cb(null, true)] is [Returns true],
    [cb(new Error(...), false)] is [Throws]. *)
Definition fileFilter (ALLOWED_FILE_TYPES : option string) (file : Multer.File)
    : outcome bool :=
  if existsb (String.eqb (Multer.mimetype file)) (allowedTypes ALLOWED_FILE_TYPES)
  then Returns true
  else Throws (JsError ("File type " +:+ Multer.mimetype file +:+ " is not allowed")).

(** A string without a comma. *)
Fixpoint comma_free (s : string) : bool :=
  match s with
  | EmptyString => true
  | String c s' => negb (Ascii.eqb c ","%char) && comma_free s'
  end.

(** A request to the file routes for an id, nothing else given. *)
Definition for_id (id : string) : FileReq.t := FileReq.mk id None None.
(** * Properties *)

(** ** The [Map] model *)

Module JSMapFacts.
Import JSMap.
Section Facts.
Context {V : Type}.
Implicit Types (m : JSMap.t V) (k : string) (v : V).

Lemma get_empty k : get (V:=V) empty k = None.
Proof. reflexivity. Qed.

Lemma get_set_eq m k v : get (set m k v) k = Some v.
Proof.
  induction m as [|[k' v'] m IH]; simpl.
  - by rewrite String.eqb_refl.
  - destruct (String.eqb k k') eqn:E; simpl; rewrite ?String.eqb_refl ?E //.
Qed.

Lemma get_set_ne m k k' v : k ≠ k' → get (set m k v) k' = get m k'.
Proof.
  intros Hne. induction m as [|[k0 v0] m IH]; simpl.
  - destruct (String.eqb_spec k' k); congruence.
  - destruct (String.eqb_spec k k0) as [->|]; simpl.
    + destruct (String.eqb_spec k' k0); congruence.
    + by rewrite IH.
Qed.

Lemma get_remove_eq m k : get (remove m k) k = None.
Proof.
  induction m as [|[k' v'] m IH]; simpl; first done.
  destruct (String.eqb k k') eqn:E; simpl; rewrite ?E //.
Qed.

Lemma get_remove_ne m k k' : k ≠ k' → get (remove m k) k' = get m k'.
Proof.
  intros Hne. induction m as [|[k0 v0] m IH]; simpl; first done.
  destruct (String.eqb_spec k k0) as [->|]; simpl.
  - destruct (String.eqb_spec k' k0); congruence.
  - by rewrite IH.
Qed.

Lemma get_Some_keys m k : (∃ v, get m k = Some v) ↔ In k (keys m).
Proof.
  induction m as [|[k' v'] m IH]; simpl.
  - split; [intros [? [=]] | done].
  - destruct (String.eqb_spec k k') as [->|Hne].
    + split; eauto.
    + rewrite IH. split; [by right | by intros [?|?]; [congruence|]].
Qed.

Lemma has_true m k : has m k = true ↔ In k (keys m).
Proof.
  rewrite -get_Some_keys /has. destruct (get m k); split; eauto.
  - done.
  - by intros [? [=]].
Qed.

Lemma has_false m k : has m k = false ↔ get m k = None.
Proof. rewrite /has. by destruct (get m k). Qed.

Lemma remove_absent m k : get m k = None → remove m k = m.
Proof.
  induction m as [|[k' v'] m IH]; simpl; first done.
  destruct (String.eqb k k'); [done | intros H; by rewrite IH].
Qed.

Lemma remove_remove m k : remove (remove m k) k = remove m k.
Proof. apply remove_absent, get_remove_eq. Qed.

(** Overwriting keeps every key where it is. *)
Lemma keys_set_present m k v : In k (keys m) → keys (set m k v) = keys m.
Proof.
  induction m as [|[k' v'] m IH]; simpl; first done.
  destruct (String.eqb_spec k k') as [->|Hne]; simpl; first done.
  intros [?|Hin]; [congruence | by rewrite IH].
Qed.

(** A new key goes last. *)
Lemma set_absent m k v : get m k = None → set m k v = m ++ [(k, v)].
Proof.
  induction m as [|[k' v'] m IH]; simpl; first done.
  destruct (String.eqb k k'); [done | intros H; by rewrite IH].
Qed.

Lemma keys_remove m k : keys (remove m k) = List.filter (fun k' => negb (String.eqb k k')) (keys m).
Proof.
  induction m as [|[k' v'] m IH]; simpl; first done.
  destruct (String.eqb k k'); simpl; by rewrite IH.
Qed.

Lemma wf_empty : wf (V:=V) empty.
Proof. constructor. Qed.

Lemma wf_set m k v : wf m → wf (set m k v).
Proof.
  rewrite /wf. intros Hwf.
  destruct (get m k) as [v0|] eqn:E.
  - rewrite keys_set_present //. apply get_Some_keys; eauto.
  - rewrite set_absent // /keys map_app /=.
    apply NoDup_app. split_and!; [done | | apply NoDup_singleton].
    intros x Hx ->%list_elem_of_singleton.
    apply list_elem_of_In, get_Some_keys in Hx as [? ?]. congruence.
Qed.

Lemma wf_remove m k : wf m → wf (remove m k).
Proof.
  rewrite /wf keys_remove. induction (keys m) as [|k' ks IH]; simpl; first done.
  intros [Hk' Hks]%NoDup_cons. destruct (String.eqb k k'); simpl; eauto.
  apply NoDup_cons. split; last by eauto.
  rewrite list_elem_of_In filter_In -list_elem_of_In. tauto.
Qed.
End Facts.
End JSMapFacts.

(** ** The metadata index *)

Ltac run :=
  rewrite /saveFileMetadata /getFileMetadata /updateAccessStats /deleteFileMetadata
    /logShareActivity /service_wf /try_catch /bind /modify /gets /ret /throw /=.

(** All maps of the service keep distinct keys, whatever is called. *)
Lemma service_wf_new : service_wf new_FileService.
Proof. repeat split; apply JSMapFacts.wf_empty. Qed.

Lemma service_wf_save tc tu metadata st :
  service_wf st → service_wf (saveFileMetadata tc tu metadata st).1.
Proof. intros (?&?&?). run. repeat split; auto using JSMapFacts.wf_set. Qed.

Lemma service_wf_access ta tu id st :
  service_wf st → service_wf (updateAccessStats ta tu id st).1.
Proof.
  intros (?&?&?). run. destruct (JSMap.get (files st) id); simpl;
    repeat split; auto using JSMapFacts.wf_set.
Qed.

Lemma service_wf_delete id st :
  service_wf st → service_wf (deleteFileMetadata id st).1.
Proof. intros (?&?&?). run. repeat split; auto using JSMapFacts.wf_remove. Qed.

Lemma service_wf_share t1 t2 id e st :
  service_wf st → service_wf (logShareActivity t1 t2 id e st).1.
Proof. intros (?&?&?). run. repeat split; auto using JSMapFacts.wf_set. Qed.

(** C10. Whatever the metadata object carries in [accessCount],
    [lastAccessed], [createdAt] and [updatedAt], the record that
    [saveFileMetadata] stores and returns has [accessCount = 0],
    [lastAccessed = null] and both time stamps read from the clock at
    creation; the other properties are those supplied. *)
Theorem saveFileMetadata_initial_fields tc tu metadata st :
  ∃ st' r,
    saveFileMetadata tc tu metadata st = (st', Returns r) ∧
    JSMap.get (files st') (fileId metadata) = Some r ∧
    accessCount r = Some 0 ∧
    lastAccessed r = Null ∧
    createdAt r = Some tc ∧
    updatedAt r = Some tu ∧
    (fileId r, originalName r, mimeType r, size r) =
      (fileId metadata, originalName metadata, mimeType metadata, size metadata) ∧
    (s3Key r, s3Location r, userId r, uploadedAt r) =
      (s3Key metadata, s3Location metadata, userId metadata, uploadedAt metadata).
Proof.
  eexists _, _. split; [reflexivity|]. simpl.
  rewrite JSMapFacts.get_set_eq. by repeat split.
Qed.

(** C2, as the source has it: [saveFileMetadata] never fails. It stores
    the new record under its [fileId] and returns it; a record already
    stored under that [fileId] is replaced, at the same place in the
    iteration order; records under other ids and the share log are
    untouched. *)
Theorem saveFileMetadata_upsert tc tu metadata st :
  ∃ st' r,
    saveFileMetadata tc tu metadata st = (st', Returns r) ∧
    JSMap.get (files st') (fileId metadata) = Some r ∧
    (originalName r, mimeType r, size r, uploadedAt r) =
      (originalName metadata, mimeType metadata, size metadata, uploadedAt metadata) ∧
    (∀ k, k ≠ fileId metadata → JSMap.get (files st') k = JSMap.get (files st) k) ∧
    (JSMap.has (files st) (fileId metadata) = true →
       JSMap.keys (files st') = JSMap.keys (files st)) ∧
    shareActivity st' = shareActivity st.
Proof.
  eexists _, _. split; [reflexivity|]. simpl.
  rewrite JSMapFacts.get_set_eq. repeat split.
  - intros k Hk. by apply JSMapFacts.get_set_ne.
  - intros H%JSMapFacts.has_true. by apply JSMapFacts.keys_set_present.
Qed.

Lemma saveFileMetadata_upsert_witness :
  JSMap.has (files with_notes) (fileId notes_again) = true ∧
  ∃ st' r,
    saveFileMetadata 2000 2001 notes_again with_notes = (st', Returns r) ∧
    JSMap.get (files st') "f-1" = Some r ∧
    originalName r = "other.pdf" ∧
    JSMap.keys (files st') = JSMap.keys (files with_notes).
Proof.
  split; [reflexivity|].
  destruct (saveFileMetadata_upsert 2000 2001 notes_again with_notes)
    as (st' & r & Hrun & Hget & Hfields & _ & Hkeys & _).
  exists st', r. repeat split; try assumption.
  - by injection Hfields.
  - apply Hkeys. reflexivity.
Defined.

(** C2, as stated, fails: saving a record under an id that is present
    raises nothing and replaces the stored record. *)
Lemma saveFileMetadata_no_conflict :
  JSMap.has (files with_notes) (fileId notes_again) = true ∧
  (∃ r, (saveFileMetadata 2000 2001 notes_again with_notes).2 = Returns r) ∧
  JSMap.get (files (saveFileMetadata 2000 2001 notes_again with_notes).1) "f-1"
    ≠ JSMap.get (files with_notes) "f-1".
Proof.
  split; [reflexivity|]. split; [by eexists|]. vm_compute. discriminate.
Qed.

(** C9. [deleteFileMetadata] never raises; the first call returns [true]
    exactly when a record is stored under the id, and afterwards neither
    the record nor a share log is kept under it; a second call returns
    [false] and changes nothing. *)
Theorem deleteFileMetadata_idempotent id st :
  ∃ st1 deleted,
    deleteFileMetadata id st = (st1, Returns deleted) ∧
    (deleted = true ↔ ∃ r, JSMap.get (files st) id = Some r) ∧
    JSMap.get (files st1) id = None ∧
    JSMap.get (shareActivity st1) id = None ∧
    (∀ k, k ≠ id →
       JSMap.get (files st1) k = JSMap.get (files st) k ∧
       JSMap.get (shareActivity st1) k = JSMap.get (shareActivity st) k) ∧
    deleteFileMetadata id st1 = (st1, Returns false).
Proof.
  eexists _, _. split; [reflexivity|]. simpl. split_and!.
  - rewrite JSMapFacts.has_true. symmetry. apply JSMapFacts.get_Some_keys.
  - apply JSMapFacts.get_remove_eq.
  - apply JSMapFacts.get_remove_eq.
  - intros k Hk. split; by apply JSMapFacts.get_remove_ne.
  - run. rewrite !JSMapFacts.remove_remove.
    by rewrite (proj2 (JSMapFacts.has_false _ _) (JSMapFacts.get_remove_eq _ _)).
Qed.

Lemma deleteFileMetadata_idempotent_witness :
  ∃ st1,
    deleteFileMetadata "f-1" with_notes = (st1, Returns true) ∧
    JSMap.get (files st1) "f-1" = None ∧
    deleteFileMetadata "f-1" st1 = (st1, Returns false).
Proof.
  destruct (deleteFileMetadata_idempotent "f-1" with_notes)
    as (st1 & deleted & Hrun & Hiff & Hgone & _ & _ & Hagain).
  exists st1. split_and!; try assumption.
  rewrite Hrun. do 2 f_equal. apply Hiff. by eexists.
Defined.

(** C4, as the source has it: [logShareActivity] does not look at the file
    index. For every id, stored or not, it appends exactly one entry
    [{sharedAt, expiresIn, expiresAt = now + expiresIn * 1000}] to the log
    kept under that id (an id without a log gets a log of one entry),
    leaves the file index and the logs of other ids as they are, and raises
    nothing. *)
Theorem logShareActivity_appends t1 t2 id expires st :
  ∃ st',
    logShareActivity t1 t2 id expires st = (st', Returns tt) ∧
    files st' = files st ∧
    JSMap.get (shareActivity st') id =
      Some (default [] (JSMap.get (shareActivity st) id)
              ++ [mkShare t1 expires (t2 + expires * 1000)]) ∧
    (∀ k, k ≠ id → JSMap.get (shareActivity st') k = JSMap.get (shareActivity st) k).
Proof.
  eexists. split; [reflexivity|]. simpl. split_and!.
  - reflexivity.
  - rewrite JSMapFacts.get_set_eq. by destruct (JSMap.get (shareActivity st) id).
  - intros k Hk. by apply JSMapFacts.get_set_ne.
Qed.

Lemma logShareActivity_appends_witness :
  ∃ st',
    logShareActivity 50 51 "f-1" 3600 with_notes = (st', Returns tt) ∧
    JSMap.get (shareActivity st') "f-1" = Some [mkShare 50 3600 3600051] ∧
    JSMap.get (shareActivity st') "f-2" = None.
Proof.
  destruct (logShareActivity_appends 50 51 "f-1" 3600 with_notes)
    as (st' & Hrun & _ & Hlog & Hother).
  exists st'. split_and!; [assumption | by rewrite Hlog | by rewrite Hother].
Defined.

(** C4, as stated, fails: for an id that is not in the file index the call
    is not a no-op, it starts a log under that id. *)
Lemma logShareActivity_unknown_id_recorded :
  JSMap.get (files new_FileService) "ghost" = None ∧
  (logShareActivity 50 51 "ghost" 3600 new_FileService).1 ≠ new_FileService ∧
  JSMap.get (shareActivity (logShareActivity 50 51 "ghost" 3600 new_FileService).1) "ghost"
    = Some [mkShare 50 3600 3600051].
Proof. split_and!; [reflexivity | discriminate | reflexivity]. Qed.

(** ** Access accounting *)

Lemma updateAccessStats_absent ta tu id st :
  JSMap.get (files st) id = None →
  updateAccessStats ta tu id st = (st, Returns tt).
Proof. intros H. run. by rewrite H. Qed.

Lemma updateAccessStats_present ta tu id st r :
  JSMap.get (files st) id = Some r →
  ∃ st',
    updateAccessStats ta tu id st = (st', Returns tt) ∧
    JSMap.get (files st') id =
      Some (set_updatedAt (Some tu)
              (set_lastAccessed (DateAt ta)
                 (set_accessCount (Some (count_of r + 1)) r))) ∧
    (∀ k, k ≠ id → JSMap.get (files st') k = JSMap.get (files st) k) ∧
    JSMap.keys (files st') = JSMap.keys (files st).
Proof.
  intros H. run. rewrite H /=. eexists. split; [reflexivity|]. simpl. split_and!.
  - by rewrite JSMapFacts.get_set_eq.
  - intros k Hk. by apply JSMapFacts.get_set_ne.
  - apply JSMapFacts.keys_set_present, JSMapFacts.get_Some_keys. eauto.
Qed.

Lemma updateAccessStats_returns ta tu id st :
  ∃ st', updateAccessStats ta tu id st = (st', Returns tt).
Proof.
  destruct (JSMap.get (files st) id) as [r|] eqn:E.
  - destruct (updateAccessStats_present ta tu id st r E) as (st' & ? & _). eauto.
  - rewrite updateAccessStats_absent //. eauto.
Qed.

Lemma or_num_zero x : JS.or_num x 0 = x.
Proof. rewrite /JS.or_num. destruct (Z.eqb_spec x 0); congruence. Qed.

(** After [k] visits the stored record reports [k] more accesses and
    carries the clock readings of the last one. *)
Lemma visits_count ts id st r :
  JSMap.get (files st) id = Some r →
  ∃ r',
    JSMap.get (files (visits ts id st)) id = Some r' ∧
    count_of r' = count_of r + Z.of_nat (length ts) ∧
    (ts ≠ [] → accessCount r' = Some (count_of r') ∧
               lastAccessed r' = DateAt (List.last ts (0, 0)).1 ∧
               updatedAt r' = Some (List.last ts (0, 0)).2) ∧
    (originalName r', mimeType r', size r', s3Key r', uploadedAt r') =
      (originalName r, mimeType r, size r, s3Key r, uploadedAt r).
Proof.
  revert st r. induction ts as [|[ta tu] ts IH]; intros st r Hget.
  - exists r. simpl. split_and!; [done | lia | done | done].
  - simpl. destruct (updateAccessStats_present ta tu id st r Hget)
      as (st' & Hrun & Hget' & _).
    rewrite Hrun /=.
    set (r1 := set_updatedAt _ _) in Hget'.
    assert (Hc : count_of r1 = count_of r + 1).
    { by rewrite /r1 /count_of /= or_num_zero. }
    destruct (IH st' r1 Hget') as (r' & Hr' & Hcount & Hlast & Hsame).
    exists r'. split_and!.
    + done.
    + lia.
    + intros _. destruct ts as [|p ts].
      * simpl in Hr'. rewrite Hget' in Hr'. injection Hr' as <-.
        by rewrite Hc.
      * apply Hlast. done.
    + by rewrite Hsame.
Qed.

(** C8. [updateAccessStats] always returns normally. For an id that is
    not stored it changes nothing. For a stored record each call adds
    exactly one to the access count and sets [lastAccessed] and
    [updatedAt] to the clock readings of the call, so [k] calls in a row
    add exactly [k]. *)
Theorem updateAccessStats_counts id st :
  (∀ ta tu, ∃ st', updateAccessStats ta tu id st = (st', Returns tt)) ∧
  (JSMap.get (files st) id = None →
     ∀ ta tu, updateAccessStats ta tu id st = (st, Returns tt)) ∧
  (∀ r, JSMap.get (files st) id = Some r →
     (∀ ta tu, ∃ r',
        JSMap.get (files (updateAccessStats ta tu id st).1) id = Some r' ∧
        accessCount r' = Some (count_of r + 1) ∧
        count_of r' = count_of r + 1 ∧
        lastAccessed r' = DateAt ta ∧
        updatedAt r' = Some tu) ∧
     (∀ ts, ∃ r',
        JSMap.get (files (visits ts id st)) id = Some r' ∧
        count_of r' = count_of r + Z.of_nat (length ts))).
Proof.
  split_and!.
  - intros. apply updateAccessStats_returns.
  - intros H ta tu. by apply updateAccessStats_absent.
  - intros r Hget. split.
    + intros ta tu.
      destruct (updateAccessStats_present ta tu id st r Hget) as (st' & -> & Hget' & _).
      eexists. split; [exact Hget'|]. simpl.
      split_and!; try reflexivity. by rewrite /count_of /= or_num_zero.
    + intros ts. destruct (visits_count ts id st r Hget) as (r' & ? & ? & _). eauto.
Qed.

Lemma updateAccessStats_counts_witness :
  updateAccessStats 7 8 "nobody" with_notes = (with_notes, Returns tt) ∧
  ∃ r',
    JSMap.get (files (visits [(10, 11); (20, 21); (30, 31)] "f-1" with_notes)) "f-1"
      = Some r' ∧
    count_of r' = 3.
Proof.
  destruct (updateAccessStats_counts "nobody" with_notes) as (_ & Habsent & _).
  destruct (updateAccessStats_counts "f-1" with_notes) as (_ & _ & Hpresent).
  split.
  - apply Habsent. reflexivity.
  - destruct (Hpresent (set_lastAccessed Null
                          (set_accessCount (Some 0)
                             (set_updatedAt (Some 1000)
                                (set_createdAt (Some 1000) notes)))) eq_refl)
      as (_ & Hk).
    destruct (Hk [(10, 11); (20, 21); (30, 31)]) as (r' & Hget & Hcount).
    exists r'. split; [exact Hget | exact Hcount].
Defined.

(** A record fresh from [saveFileMetadata] shows exactly the number of
    visits made since. *)
Corollary visits_after_save tc tu metadata st ts :
  ∃ r',
    JSMap.get (files (visits ts (fileId metadata) (saveFileMetadata tc tu metadata st).1))
      (fileId metadata) = Some r' ∧
    count_of r' = Z.of_nat (length ts).
Proof.
  set (st' := (saveFileMetadata tc tu metadata st).1).
  assert (Hget : ∃ r, JSMap.get (files st') (fileId metadata) = Some r ∧ count_of r = 0).
  { eexists. rewrite /st' /= JSMapFacts.get_set_eq. split; reflexivity. }
  destruct Hget as (r & Hget & Hzero).
  destruct (visits_count ts _ _ _ Hget) as (r' & Hget' & Hcount & _).
  exists r'. split; [done | lia].
Qed.

(** ** Sorting *)

Module SortFacts.
Section Descending.
Context {A : Type} (key : A → Z).

Let cmp (a b : A) : Z := key b - key a.
Let desc (a b : A) : Prop := key b <= key a.
Let at_key (t : Z) (l : list A) : list A := List.filter (fun a => key a =? t) l.

Lemma insert_perm x l : Permutation (JS.insert cmp x l) (x :: l).
Proof.
  induction l as [|y l IH]; simpl; first done.
  destruct (cmp x y <=? 0); first done.
  rewrite IH. apply perm_swap.
Qed.

Lemma sort_perm l : Permutation (JS.sort cmp l) l.
Proof.
  induction l as [|x l IH]; simpl; first done.
  by rewrite insert_perm IH.
Qed.

Lemma insert_sorted x l :
  StronglySorted desc l → StronglySorted desc (JS.insert cmp x l).
Proof.
  induction 1 as [|y l Hl IH Hy]; simpl.
  - repeat constructor.
  - destruct (Z.leb_spec (cmp x y) 0) as [Hle|Hgt].
    + constructor; first by constructor.
      constructor; first (rewrite /desc; rewrite /cmp in Hle; lia).
      eapply Forall_impl; first exact Hy.
      intros z Hz. rewrite /desc in Hz |- *. rewrite /cmp in Hle. lia.
    + constructor; first done.
      rewrite insert_perm.
      constructor; last done. rewrite /desc. rewrite /cmp in Hgt. lia.
Qed.

Lemma sort_sorted l : StronglySorted desc (JS.sort cmp l).
Proof.
  induction l as [|x l IH]; simpl; [constructor | by apply insert_sorted].
Qed.

(** Stability: elements with equal keys keep their order. *)
Lemma insert_stable t x l : at_key t (JS.insert cmp x l) = at_key t (x :: l).
Proof.
  induction l as [|y l IH]; first done.
  simpl JS.insert. destruct (Z.leb_spec (cmp x y) 0) as [Hle|Hgt]; first done.
  rewrite /at_key /= in IH |- *. rewrite IH.
  destruct (Z.eqb_spec (key x) t), (Z.eqb_spec (key y) t); try done.
  rewrite /cmp in Hgt. lia.
Qed.

Lemma sort_stable t l : at_key t (JS.sort cmp l) = at_key t l.
Proof.
  induction l as [|x l IH]; first done.
  simpl JS.sort. rewrite insert_stable /at_key /=. rewrite /at_key in IH.
  by rewrite IH.
Qed.

Lemma at_key_In t x l : In x (at_key t l) ↔ In x l ∧ key x = t.
Proof. rewrite /at_key filter_In Z.eqb_eq. tauto. Qed.

(** A descending list is determined by its groups of equal keys. *)
Lemma sorted_groups_unique l1 l2 :
  StronglySorted desc l1 → StronglySorted desc l2 →
  (∀ t, at_key t l1 = at_key t l2) → l1 = l2.
Proof.
  intros H1. revert l2. induction H1 as [|x l1 Hl1 IH Hx]; intros l2 H2 Hgroups.
  - destruct l2 as [|y l2]; first done.
    specialize (Hgroups (key y)). rewrite /at_key /= Z.eqb_refl in Hgroups.
    discriminate.
  - destruct H2 as [|y l2 Hl2 Hy].
    { specialize (Hgroups (key x)). rewrite /at_key /= Z.eqb_refl in Hgroups.
      discriminate. }
    assert (Hxy : key x = key y).
    { assert (In x (y :: l2)) as [->|Hin]; [|done|].
      { apply (at_key_In (key x)). rewrite -Hgroups. apply at_key_In.
        split; [by left | done]. }
      assert (In y (x :: l1)) as [->|Hin']; [|done|].
      { apply (at_key_In (key y)). rewrite Hgroups. apply at_key_In.
        split; [by left | done]. }
      rewrite ->List.Forall_forall in Hx, Hy.
      apply Hx in Hin'. apply Hy in Hin. rewrite /desc in Hin Hin'. lia. }
    pose proof (Hgroups (key x)) as Hhead.
    rewrite /at_key /= -Hxy Z.eqb_refl in Hhead.
    injection Hhead as -> Htail.
    f_equal. apply IH; first done.
    intros t. specialize (Hgroups t). rewrite /at_key /= in Hgroups.
    rewrite /at_key. destruct (key y =? t); [by injection Hgroups | done].
Qed.

(** Hence every stable descending sort computes [JS.sort]. *)
Lemma sort_unique l l' :
  StronglySorted desc l' → (∀ t, at_key t l' = at_key t l) → l' = JS.sort cmp l.
Proof.
  intros Hs Hg. apply sorted_groups_unique; [done | apply sort_sorted |].
  intros t. by rewrite Hg sort_stable.
Qed.
End Descending.
End SortFacts.

(** ** Pagination *)

Lemma ceil_div_spec T L :
  1 <= L → ∃ P, JS.ceil_div T L = JS.Num P ∧ (P - 1) * L < T <= P * L.
Proof.
  intros HL. rewrite /JS.ceil_div.
  destruct (Z.eqb_spec L 0) as [|_]; first lia.
  eexists. split; first reflexivity.
  pose proof (Z.div_mod (- T) L ltac:(lia)) as Hdm.
  pose proof (Z.mod_pos_bound (- T) L ltac:(lia)) as Hm.
  nia.
Qed.

Lemma take_min_length {A} (n : nat) (l : list A) :
  take (n `min` length l) l = take n l.
Proof.
  destruct (Nat.le_gt_cases n (length l)).
  - by rewrite Nat.min_l.
  - rewrite Nat.min_r; first lia. rewrite !firstn_all2 //. lia.
Qed.

(** A slice that starts at a position [start >= 0] and spans [n >= 0]. *)
Lemma slice_take_drop {A} (l : list A) (start n : Z) :
  0 <= start → 0 <= n →
  JS.slice l start (start + n) = take (Z.to_nat n) (drop (Z.to_nat start) l).
Proof.
  intros Hs Hn. rewrite /JS.slice.
  destruct (Z.ltb_spec start 0); first lia.
  destruct (Z.ltb_spec (start + n) 0); first lia.
  destruct (Z.le_gt_cases start (Z.of_nat (length l))) as [Hin|Hout].
  - rewrite (Z.min_l start) //.
    rewrite -(take_min_length (Z.to_nat n)). f_equal.
    rewrite length_drop. lia.
  - rewrite (Z.min_r start); first lia.
    rewrite (Z.min_r (start + n)); first lia.
    rewrite Z.sub_diag /=. rewrite (skipn_all2 l (n:=Z.to_nat start)); first lia.
    by rewrite firstn_nil.
Qed.

(** Cutting a list into [n] consecutive chunks of [L] elements loses and
    repeats nothing, provided [n] chunks reach the end. *)
Lemma chunks_concat {A} (L n : nat) (l : list A) :
  (length l <= n * L)%nat →
  concat (map (fun k => take L (drop (k * L) l)) (seq 0 n)) = l.
Proof.
  revert l. induction n as [|n IH]; intros l Hlen.
  - destruct l; [done | simpl in Hlen; lia].
  - rewrite /= -seq_shift map_map.
    rewrite -{3}(firstn_skipn L l). f_equal.
    etrans; last apply (IH (drop L l)).
    + f_equal. apply map_ext. intros k. by rewrite drop_drop.
    + rewrite length_drop. lia.
Qed.

Lemma filter_all {A} (l : list A) : List.filter (fun _ => true) l = l.
Proof. induction l as [|x l IH]; simpl; by rewrite ?IH. Qed.

Lemma filter_both {A} (f g : A → bool) (l : list A) :
  List.filter g (List.filter f l) = List.filter (fun x => f x && g x) l.
Proof.
  induction l as [|x l IH]; simpl; first done.
  destruct (f x); simpl; [destruct (g x)|]; by rewrite IH.
Qed.

Section ListingFacts.
Variable toLowerCase : string → string.

Lemma filter_type_pred ty l :
  filter_type ty l =
  List.filter (fun file =>
                 match ty with
                 | Some t => if JS.truthy_str ty then JS.includes (mimeType file) t else true
                 | None => true
                 end) l.
Proof.
  rewrite /filter_type. destruct ty as [t|]; simpl.
  - destruct (String.eqb t EmptyString); simpl; by rewrite ?filter_all.
  - by rewrite filter_all.
Qed.

Lemma filter_search_pred se l :
  filter_search toLowerCase se l =
  List.filter (fun file =>
                 match se with
                 | Some s =>
                     if JS.truthy_str se
                     then JS.includes (toLowerCase (originalName file)) (toLowerCase s)
                     else true
                 | None => true
                 end) l.
Proof.
  rewrite /filter_search. destruct se as [s|]; simpl.
  - destruct (String.eqb s EmptyString); simpl; by rewrite ?filter_all.
  - by rewrite filter_all.
Qed.

(** The two filters together keep exactly the records that pass both. *)
Lemma filters_as_predicate o l :
  filter_search toLowerCase (search o) (filter_type (type o) l)
  = List.filter (matches toLowerCase o) l.
Proof. by rewrite filter_type_pred filter_search_pred filter_both. Qed.
End ListingFacts.

Lemma listed_kept toLowerCase o st :
  listed toLowerCase o st = JS.sort newest_first (kept toLowerCase o st).
Proof. by rewrite /listed filters_as_predicate. Qed.

Lemma listFiles_run toLowerCase o st :
  listFiles toLowerCase o st =
  (st, Returns
         (mkListing
            (map item_of
               (JS.slice (listed toLowerCase o st)
                  ((page_asked o - 1) * limit_asked o)
                  ((page_asked o - 1) * limit_asked o + limit_asked o)))
            (page_asked o) (limit_asked o)
            (Z.of_nat (length (listed toLowerCase o st)))
            (JS.ceil_div (Z.of_nat (length (listed toLowerCase o st))) (limit_asked o))
            (JS.lt_num (page_asked o)
               (JS.ceil_div (Z.of_nat (length (listed toLowerCase o st))) (limit_asked o)))
            (1 <? page_asked o))).
Proof. reflexivity. Qed.

Lemma page_items_chunk toLowerCase o st (k : nat) :
  1 <= limit_asked o →
  page_items toLowerCase o st (Z.of_nat k + 1) =
  map item_of
    (take (Z.to_nat (limit_asked o))
       (drop (k * Z.to_nat (limit_asked o)) (listed toLowerCase o st))).
Proof.
  intros HL. rewrite /page_items listFiles_run /=.
  change (limit_asked (mkListOptions _ (limit o) _ _)) with (limit_asked o).
  change (page_asked (mkListOptions (Some ?p) _ _ _)) with p.
  change (listed toLowerCase (mkListOptions _ _ (type o) (search o)) st)
    with (listed toLowerCase o st).
  rewrite slice_take_drop; [nia | lia |].
  do 3 f_equal. nia.
Qed.

(** C6. For a page [p >= 1] and a limit [L >= 1] (the bounds the routes
    enforce), with [T] records passing the filters: [listFiles] returns
    normally with [total = T] and [pages = ceil(T / L)], [hasNext] is
    [p < pages] and [hasPrev] is [p > 1]; the items are the [p]-th run of
    [L] records of the filtered list sorted by [uploadedAt], newest first,
    records with equal time stamps in the iteration order of the map; a
    page beyond [pages] is empty; and pages [1 .. pages] one after the
    other are the whole sorted list, each record once. *)
Theorem listFiles_pagination (toLowerCase : string → string) (o : ListOptions)
    (st : FileService) :
  1 <= page_asked o →
  1 <= limit_asked o →
  ∃ r P,
    listFiles toLowerCase o st = (st, Returns r) ∧
    l_page r = page_asked o ∧
    l_limit r = limit_asked o ∧
    total r = Z.of_nat (length (kept toLowerCase o st)) ∧
    pages r = JS.Num P ∧
    (P - 1) * limit_asked o < total r <= P * limit_asked o ∧
    hasNext r = (page_asked o <? P) ∧
    hasPrev r = (1 <? page_asked o) ∧
    l_files r =
      map item_of
        (take (Z.to_nat (limit_asked o))
           (drop (Z.to_nat ((page_asked o - 1) * limit_asked o))
              (listed toLowerCase o st))) ∧
    (P < page_asked o → l_files r = []) ∧
    StronglySorted newer_or_same (listed toLowerCase o st) ∧
    Permutation (listed toLowerCase o st) (kept toLowerCase o st) ∧
    (∀ t, uploaded_at t (listed toLowerCase o st) = uploaded_at t (kept toLowerCase o st)) ∧
    concat (map (page_items toLowerCase o st) (seqZ 1 P)) =
      map item_of (listed toLowerCase o st).
Proof.
  intros Hp HL.
  set (full := listed toLowerCase o st).
  destruct (ceil_div_spec (Z.of_nat (length full)) (limit_asked o) HL)
    as (P & HP & Hbounds).
  assert (Hperm : Permutation full (kept toLowerCase o st)).
  { rewrite /full listed_kept. apply (SortFacts.sort_perm uploadedAt). }
  assert (Hslice :
    JS.slice full ((page_asked o - 1) * limit_asked o)
      ((page_asked o - 1) * limit_asked o + limit_asked o)
    = take (Z.to_nat (limit_asked o))
        (drop (Z.to_nat ((page_asked o - 1) * limit_asked o)) full)).
  { apply slice_take_drop; nia. }
  eexists _, P. split; first apply listFiles_run.
  fold full. simpl. rewrite HP Hslice. split_and!; try done; try lia.
  - by rewrite (Permutation_length Hperm).
  - intros Hbeyond. rewrite skipn_all2; [|by rewrite take_nil].
    assert (P * limit_asked o <= (page_asked o - 1) * limit_asked o) by nia. lia.
  - rewrite /full listed_kept. apply (SortFacts.sort_sorted uploadedAt).
  - intros t. rewrite /full listed_kept. apply (SortFacts.sort_stable uploadedAt).
  - change (seqZ 1 P) with (map (fun k => Z.of_nat k + 1) (seq 0 (Z.to_nat P))).
    rewrite map_map.
    rewrite (map_ext _ (fun k => map item_of
               (take (Z.to_nat (limit_asked o))
                  (drop (k * Z.to_nat (limit_asked o)) full)))).
    { intros k. by apply page_items_chunk. }
    rewrite -(map_map (fun k => take _ (drop (k * _) full)) (map item_of)).
    rewrite -concat_map chunks_concat //. nia.
Qed.

Lemma listFiles_pagination_witness :
  ∃ r,
    listFiles lower second_page_of_two three_files = (three_files, Returns r) ∧
    total r = 3 ∧
    pages r = JS.Num 2 ∧
    hasNext r = false ∧
    hasPrev r = true ∧
    map Item.fileId (l_files r) = ["a"] ∧
    map Item.fileId
      (concat (map (page_items lower second_page_of_two three_files) (seqZ 1 2)))
    = ["b"; "c"; "a"].
Proof.
  destruct (listFiles_pagination lower second_page_of_two three_files)
    as (r & P & Hrun & _ & _ & Htotal & Hpages & Hbounds & Hnext & Hprev & Hitems
        & _ & _ & _ & _ & Hall).
  - vm_compute. discriminate.
  - vm_compute. discriminate.
  - assert (HP : P = 2).
    { assert (Hk : Z.of_nat (length (kept lower second_page_of_two three_files)) = 3)
        by reflexivity.
      rewrite Htotal Hk in Hbounds.
      change (limit_asked second_page_of_two) with 2 in Hbounds. lia. }
    subst P. exists r.
    split_and!;
      first [ assumption | by rewrite Htotal | by rewrite Hnext | by rewrite Hprev
            | by rewrite Hitems | by rewrite Hall ].
Defined.

(** ** The upload pipeline *)

Ltac run_pipeline :=
  rewrite /uploadSingle /upload_one /server /s3Service /fileService /zoom
    /uploadFile /getPresignedUrl /saveFileMetadata /cleanup /unlink /s3_upload
    /push_uploaded /push_failed /answer /try_catch /bind /modify /gets /ret /throw /=.

Ltac branch :=
  repeat match goal with
         | |- context [match ?x with Returns _ => _ | Throws _ => _ end] =>
             destruct x eqn:?; simpl
         | |- context [if ?b then _ else _] => destruct b eqn:?; simpl
         | |- context [let (_, _) := ?p in _] => destruct p eqn:?; simpl
         end.

Ltac run_controller :=
  rewrite /uploadSingle /upload_one /server /s3Service /fileService /zoom
    /getPresignedUrl /saveFileMetadata /push_uploaded /push_failed /answer
    /try_catch /bind /modify /gets /ret /throw /=.

(** Removing the staged file never fails the caller and touches neither
    the index nor the bucket. *)
Lemma cleanup_returns path w :
  ∃ w', cleanup path w = (w', Returns tt) ∧ service w' = service w ∧ s3 w' = s3 w.
Proof.
  rewrite /cleanup /unlink /try_catch /bind /gets /modify /ret /throw /=.
  destruct (bool_decide (path ∈ staged w)); simpl; eauto.
Qed.

Section PipelineFacts.
Variable S3_BUCKET : string.
Variable NODE_ENV : option string.

(** A file whose sniffed type differs from the declared one is turned
  away before anything is stored; the error that leaves [uploadFile] is
  the one built in its [catch]. *)
Lemma uploadFile_mismatch env file fileId userId objs mime :
sniffed env = Returns (Some mime) →
mime ≠ Multer.mimetype file →
uploadFile S3_BUCKET NODE_ENV env file fileId userId objs =
(objs, Throws (AppErr (mkAppError "File upload failed: File type validation failed" 500))).
Proof.
intros Hs Hne. run_pipeline. rewrite Hs /=.
by destruct (String.eqb_spec mime (Multer.mimetype file)).
Qed.

(** [uploadFile] succeeds exactly when the type check passes and the store
  accepts the object; the object then sits under [key_of]. *)
Lemma uploadFile_ok env file fileId userId objs loc tag :
type_ok env file = true →
stored env = Returns (loc, tag) →
∃ obj,
  uploadFile S3_BUCKET NODE_ENV env file fileId userId objs =
    (<[key_of userId fileId file := obj]> objs,
     Returns (mkUploadResult (key_of userId fileId file) loc tag S3_BUCKET)) ∧
  Key obj = key_of userId fileId file ∧
  ContentType obj = Multer.mimetype file ∧
  md_original_name obj = Multer.originalname file.
Proof.
rewrite /type_ok. intros Hok Hst. run_pipeline. rewrite Hst.
destruct (sniffed env) as [[mime|]|]; simpl; try done; rewrite ?Hok /=;
  branch; eexists; split_and!; reflexivity.
Qed.

Lemma uploadFile_rejects env file fileId userId objs :
type_ok env file && returns (stored env) = false →
∃ e, uploadFile S3_BUCKET NODE_ENV env file fileId userId objs = (objs, Throws e).
Proof.
rewrite /type_ok /returns. intros H. run_pipeline.
destruct (sniffed env) as [[mime|]|]; simpl in *;
  try destruct (String.eqb mime (Multer.mimetype file)); simpl in *;
  branch; try discriminate; eauto.
Qed.
(** One turn of the batch loop always ends normally, and records the file
  in exactly one of the two arrays. *)
Lemma upload_one_spec env req file b :
∃ b',
  upload_one S3_BUCKET NODE_ENV env req file b = (b', Returns tt) ∧
  if ingested (env, file)
  then (∃ u, uploadedFiles b' = uploadedFiles b ++ [u] ∧
             Uploaded.filename u = Multer.originalname file) ∧
       failedFiles b' = failedFiles b
  else (∃ f, failedFiles b' = failedFiles b ++ [f] ∧
             Failed.filename f = Multer.originalname file) ∧
       uploadedFiles b' = uploadedFiles b.
Proof.
rewrite /ingested /=.
destruct (type_ok env file && returns (stored env)) eqn:Hup; simpl.
- apply andb_prop in Hup as [Hok Hst].
  destruct (stored env) as [[loc tag]|] eqn:Hstored; last done.
  destruct (uploadFile_ok env file (uuid env) (owner req) (s3 (world b)) loc tag Hok Hstored)
    as (obj & Hrun & _).
  run_controller. rewrite Hrun /=.
  destruct (signed env) as [url|e]; simpl.
  + match goal with |- context [cleanup ?p ?w] =>
      destruct (cleanup_returns p w) as (w' & -> & _) end.
    eexists. split; [reflexivity|]. simpl. eauto.
  + match goal with |- context [cleanup ?p ?w] =>
      destruct (cleanup_returns p w) as (w' & -> & _) end.
    eexists. split; [reflexivity|]. simpl. eauto.
- destruct (uploadFile_rejects env file (uuid env) (owner req) (s3 (world b)) Hup)
    as (e & Hrun).
  run_controller. rewrite Hrun /=.
  match goal with |- context [cleanup ?p ?w] =>
    destruct (cleanup_returns p w) as (w' & -> & _) end.
  eexists. split; [reflexivity|]. simpl. eauto.
Qed.

Lemma upload_each_spec envs req l : ∀ i b,
∃ b',
  upload_each S3_BUCKET NODE_ENV envs i req l b = (b', Returns tt) ∧
  map Uploaded.filename (uploadedFiles b') =
    map Uploaded.filename (uploadedFiles b)
      ++ map name_of (List.filter ingested (jobs envs i l)) ∧
  map Failed.filename (failedFiles b') =
    map Failed.filename (failedFiles b)
      ++ map name_of (List.filter (fun j => negb (ingested j)) (jobs envs i l)).
Proof.
induction l as [|file l IH]; intros i b.
- exists b. by rewrite /= !app_nil_r.
- destruct (upload_one_spec (envs i) req file b) as (b1 & Hone & Hcase).
  destruct (IH (S i) b1) as (b' & Hrest & Hup & Hfail).
  exists b'. split.
  { by rewrite /= /bind Hone. }
  rewrite Hup Hfail /=.
  destruct (ingested (envs i, file)); simpl.
  + destruct Hcase as ((u & -> & Hname) & ->).
    by rewrite map_app /= Hname -app_assoc.
  + destruct Hcase as ((f & -> & Hname) & ->).
    by rewrite map_app /= Hname -app_assoc.
Qed.

Lemma filter_split_length {A} (p : A → bool) (l : list A) :
(length (List.filter p l) + length (List.filter (fun x => negb (p x)) l))%nat = length l.
Proof. induction l as [|x l IH]; simpl; [done | destruct (p x); simpl; lia]. Qed.

Lemma filter_split_perm {A} (p : A → bool) (l : list A) :
Permutation (List.filter p l ++ List.filter (fun x => negb (p x)) l) l.
Proof.
induction l as [|x l IH]; simpl; first done.
destruct (p x); simpl.
- by constructor.
- rewrite -Permutation_middle. by constructor.
Qed.

Lemma jobs_names envs i l : map name_of (jobs envs i l) = map Multer.originalname l.
Proof. revert i. induction l as [|f l IH]; intros i; simpl; by rewrite ?IH. Qed.
End PipelineFacts.

(** C5. For a batch of [N >= 1] files, [uploadMultiple] answers 201 with
    [summary.total = N] and [successful + failed = N], the two counters
    being the lengths of the two lists. The names in [uploaded] are, in
    input order, those of the files whose own run got through, and the
    names in [failed] those of all the others: each input file is in
    exactly one list, and no failure keeps a later file from being
    processed. *)
Theorem uploadMultiple_accounting (S3_BUCKET : string) (NODE_ENV : option string)
    (envs : nat → Env) (req : Req.t) (l : list Multer.File) (w : World) :
  Req.files req = Some l →
  l ≠ [] →
  ∃ w' out,
    uploadMultiple S3_BUCKET NODE_ENV envs req w = (w', Returns (Json 201 out)) ∧
    sum_total (summary out) = Z.of_nat (length l) ∧
    successful (summary out) = Z.of_nat (length (uploaded out)) ∧
    failed_count (summary out) = Z.of_nat (length (failed out)) ∧
    successful (summary out) + failed_count (summary out) = Z.of_nat (length l) ∧
    map Uploaded.filename (uploaded out) =
      map name_of (List.filter ingested (jobs envs 0 l)) ∧
    map Failed.filename (failed out) =
      map name_of (List.filter (fun j => negb (ingested j)) (jobs envs 0 l)) ∧
    Permutation
      (map Uploaded.filename (uploaded out) ++ map Failed.filename (failed out))
      (map Multer.originalname l).
Proof.
  intros Hfiles Hne.
  destruct (upload_each_spec S3_BUCKET NODE_ENV envs req l 0 (mkBatch w [] []))
    as (b' & Hloop & Hup & Hfail).
  simpl in Hup, Hfail.
  exists (world b'), (mkBatchOutcome (uploadedFiles b') (failedFiles b')
                        (mkSummary (Z.of_nat (length l))
                           (Z.of_nat (length (uploadedFiles b')))
                           (Z.of_nat (length (failedFiles b'))))).
  split.
  { rewrite /uploadMultiple /uploadMultiple_body /try_catch /bind /gets /ret /throw Hfiles.
    destruct l as [|file rest]; first done. by rewrite Hloop. }
  simpl. split_and!; try done.
  - rewrite -(length_map Uploaded.filename) -(length_map Failed.filename) Hup Hfail.
    rewrite !length_map -Nat2Z.inj_add filter_split_length.
    f_equal. rewrite -(length_map name_of) jobs_names. by rewrite length_map.
  - rewrite Hup Hfail -map_app filter_split_perm. by rewrite jobs_names.
Qed.

Lemma uploadMultiple_accounting_witness :
  ∃ w' out,
    uploadMultiple "bucket" None second_fails
      (anonymous_batch [text_upload; png_upload; text_upload]) empty_world
    = (w', Returns (Json 201 out)) ∧
    summary out = mkSummary 3 2 1 ∧
    map Uploaded.filename (uploaded out) = ["notes.txt"; "notes.txt"] ∧
    map Failed.filename (failed out) = ["report.png"].
Proof.
  destruct (uploadMultiple_accounting "bucket" None second_fails
              (anonymous_batch [text_upload; png_upload; text_upload])
              [text_upload; png_upload; text_upload] empty_world)
    as (w' & out & Hrun & Htotal & Hok & Hbad & _ & Hup & Hfail & _).
  - reflexivity.
  - discriminate.
  - exists w', out. split; [exact Hrun|].
    assert (Hlu : length (uploaded out) = 2%nat).
    { by rewrite -(length_map Uploaded.filename) Hup. }
    assert (Hlf : length (failed out) = 1%nat).
    { by rewrite -(length_map Failed.filename) Hfail. }
    split_and!; [| exact Hup | exact Hfail].
    destruct out as [u f [t s fc]]. simpl in *.
    rewrite Htotal Hok Hbad Hlu Hlf. reflexivity.
Defined.

(** C7. When the sniffed type is defined and differs from the declared
    one, [uploadSingle] hands an error to [next] and neither the bucket
    nor the metadata index has changed, so the statistics are those from
    before; the same holds for that file's turn in a batch. *)
Theorem uploadSingle_rejected_unchanged (S3_BUCKET : string) (NODE_ENV : option string)
    (env : Env) (req : Req.t) (file : Multer.File) (mime : string) (w : World) :
  Req.file req = Some file →
  sniffed env = Returns (Some mime) →
  mime ≠ Multer.mimetype file →
  ∃ w' e,
    uploadSingle S3_BUCKET NODE_ENV env req w = (w', Returns (Next e)) ∧
    s3 w' = s3 w ∧
    service w' = service w ∧
    (∀ now stamp,
       getUploadStats now stamp (service w') = getUploadStats now stamp (service w)) ∧
    (∀ b, let b' := (upload_one S3_BUCKET NODE_ENV env req file b).1 in
          s3 (world b') = s3 (world b) ∧
          service (world b') = service (world b) ∧
          uploadedFiles b' = uploadedFiles b).
Proof.
  intros Hfile Hs Hne.
  pose proof (uploadFile_mismatch S3_BUCKET NODE_ENV env file (uuid env) (owner req))
    as Hrej.
  assert (∃ w' e,
    uploadSingle S3_BUCKET NODE_ENV env req w = (w', Returns (Next e)) ∧
    s3 w' = s3 w ∧ service w' = service w) as (w' & e & Hrun & Hs3 & Hsvc).
  { run_controller. rewrite Hfile /= (Hrej (s3 w) mime Hs Hne) /=.
    destruct (negb (String.eqb (Multer.path file) EmptyString)); simpl.
    - match goal with |- context [cleanup ?p ?w] =>
        destruct (cleanup_returns p w) as (w' & -> & Hsvc & Hs3) end.
      eexists _, _. split; [reflexivity|]. simpl in *. by rewrite Hsvc Hs3.
    - eexists _, _. split; [reflexivity|]. simpl. by destruct w. }
  exists w', e. split_and!; try done.
  - intros now stamp. by rewrite Hsvc.
  - intros b. run_controller. rewrite (Hrej (s3 (world b)) mime Hs Hne) /=.
    match goal with |- context [cleanup ?p ?w] =>
      destruct (cleanup_returns p w) as (w1 & -> & Hsvc1 & Hs31) end.
    simpl in *. by rewrite Hsvc1 Hs31.
Qed.

Lemma uploadSingle_rejected_unchanged_witness :
  ∃ w' e,
    uploadSingle "bucket" None finds_pdf (anonymous_single png_upload) empty_world
    = (w', Returns (Next e)) ∧
    s3 w' = ∅ ∧
    JSMap.keys (files (service w')) = [].
Proof.
  destruct (uploadSingle_rejected_unchanged "bucket" None finds_pdf
              (anonymous_single png_upload) png_upload "application/pdf" empty_world)
    as (w' & e & Hrun & Hs3 & Hsvc & _).
  - reflexivity.
  - reflexivity.
  - discriminate.
  - exists w', e. split_and!; [exact Hrun | by rewrite Hs3 | by rewrite Hsvc].
Defined.

(** C1: the error a type mismatch leaves [uploadFile] with. The [throw]
    of the 400 sits inside the [try] whose [catch] rebuilds every error
    with status 500, so at a PNG declaration over PDF content the caller
    gets a 500, which is not a client error, and [uploadSingle] passes
    that on. *)
Theorem uploadFile_mismatch_status :
  uploadFile "bucket" None finds_pdf png_upload "id-1" "anonymous" ∅ =
    (∅, Throws (AppErr (mkAppError "File upload failed: File type validation failed" 500))) ∧
  ¬ client_error
      (AppErr (mkAppError "File upload failed: File type validation failed" 500)) ∧
  (uploadSingle "bucket" None finds_pdf (anonymous_single png_upload) empty_world).2 =
    Returns (Next (AppErr (mkAppError "File upload failed: File type validation failed" 500))).
Proof.
  split_and!.
  - by apply (uploadFile_mismatch _ _ _ _ _ _ _ "application/pdf").
  - simpl. lia.
  - reflexivity.
Qed.

(** The key is a fixed function of owner, id and declared name, and the
    declared name enters it as it is. *)
Lemma uploadFile_key S3_BUCKET NODE_ENV env file fileId userId objs objs' r :
  uploadFile S3_BUCKET NODE_ENV env file fileId userId objs = (objs', Returns r) →
  key r = "uploads/" +:+ userId +:+ "/" +:+ fileId +:+ "-" +:+ Multer.originalname file ∧
  ∃ obj, objs' !! key r = Some obj ∧ md_original_name obj = Multer.originalname file.
Proof.
  destruct (type_ok env file && returns (stored env)) eqn:Hup.
  - apply andb_prop in Hup as [Hok Hst].
    destruct (stored env) as [[loc tag]|] eqn:Hstored; last done.
    destruct (uploadFile_ok S3_BUCKET NODE_ENV env file fileId userId objs loc tag Hok Hstored)
      as (obj & -> & Hkey & _ & Hname).
    intros [= <- <-]. split; first done.
    exists obj. by rewrite /= lookup_insert_eq.
  - destruct (uploadFile_rejects S3_BUCKET NODE_ENV env file fileId userId objs Hup)
      as (e & ->). discriminate.
Qed.

(** C3: the key for a declared name with directory parts and a control
    character. Nothing is stripped: the name is the tail of the key, and
    the object is stored under it. *)
Theorem uploadFile_key_unsanitized :
  ∃ objs r obj,
    uploadFile "bucket" None all_fine odd_upload "id-2" "anonymous" ∅ = (objs, Returns r) ∧
    key r = "uploads/anonymous/id-2-../../etc/" +:+ String "009"%char "passwd" ∧
    JS.includes (key r) "-../../etc/" = true ∧
    JS.includes (key r) (String "009"%char EmptyString) = true ∧
    objs !! key r = Some obj.
Proof.
  destruct (uploadFile_ok "bucket" None all_fine odd_upload "id-2" "anonymous" ∅
              "https://bucket/loc" "etag" eq_refl eq_refl) as (obj & Hrun & _).
  eexists _, _, obj. split; [exact Hrun|]. simpl.
  split_and!; first [reflexivity | by rewrite lookup_insert_eq].
Qed.

(** ** Invariants of the index *)

Lemma service_wf_after c st : service_wf st → service_wf (after c st).
Proof.
  intros Hwf. destruct c.
  - by apply service_wf_save.
  - by apply service_wf_access.
  - by apply service_wf_delete.
  - by apply service_wf_share.
Qed.

Lemma record_ok_after c st :
  (∀ k r, JSMap.get (files st) k = Some r → record_ok k r) →
  ∀ k r, JSMap.get (files (after c st)) k = Some r → record_ok k r.
Proof.
  intros Hst k r. destruct c as [tc tu metadata|ta tu id|id|t1 t2 id e]; simpl.
  - destruct (decide (fileId metadata = k)) as [<-|Hne].
    + rewrite JSMapFacts.get_set_eq. intros [= <-].
      rewrite /record_ok /=. split_and!; try done. exists 0. split; [done | lia].
    + rewrite JSMapFacts.get_set_ne //. apply Hst.
  - destruct (JSMap.get (files st) id) as [r0|] eqn:Hid.
    + destruct (updateAccessStats_present ta tu id st r0 Hid) as (st' & -> & Hget & Hother & _).
      simpl. destruct (decide (id = k)) as [<-|Hne].
      * rewrite Hget. intros [= <-].
        destruct (Hst id r0 Hid) as (Hfid & (n & Hn & Hpos) & ? & ? & ?).
        rewrite /record_ok /=. split_and!; try done.
        exists (n + 1). rewrite /count_of Hn /= or_num_zero. split; [done | lia].
      * rewrite Hother //. apply Hst.
    + rewrite updateAccessStats_absent //. apply Hst.
  - destruct (decide (id = k)) as [<-|Hne].
    + by rewrite JSMapFacts.get_remove_eq.
    + rewrite JSMapFacts.get_remove_ne //. apply Hst.
  - apply Hst.
Qed.

(** X21. Every reachable state has maps with distinct keys, and every
    stored record sits under its own [fileId] with a count that is a
    non-negative number and with its time stamps set. *)
Theorem reachable_index_ok st : reachable st → index_ok st.
Proof.
  induction 1 as [|c st _ [Hwf Hrec]].
  - split; [apply service_wf_new | intros k r [=]].
  - split; [by apply service_wf_after | by apply record_ok_after].
Qed.

(** X22. The count of a stored record never goes down, whatever is
    called, unless the record is deleted or replaced by a save. *)
Lemma count_monotone c st k r r' :
  JSMap.get (files st) k = Some r →
  JSMap.get (files (after c st)) k = Some r' →
  (∀ tc tu metadata, c = Save tc tu metadata → fileId metadata ≠ k) →
  count_of r <= count_of r'.
Proof.
  intros Hget Hget' Hnosave.
  destruct c as [tc tu metadata|ta tu id|id|t1 t2 id e]; simpl in Hget'.
  - rewrite JSMapFacts.get_set_ne in Hget'; first by eapply Hnosave.
    rewrite Hget in Hget'. injection Hget' as <-. lia.
  - destruct (JSMap.get (files st) id) as [r0|] eqn:Hid.
    + destruct (updateAccessStats_present ta tu id st r0 Hid) as (st' & Hrun & Hnew & Hother & _).
      rewrite Hrun /= in Hget'. destruct (decide (id = k)) as [->|Hne].
      * rewrite Hnew in Hget'. injection Hget' as <-.
        rewrite Hget in Hid. injection Hid as <-.
        rewrite {2}/count_of /= or_num_zero. lia.
      * rewrite Hother // Hget in Hget'. injection Hget' as <-. lia.
    + rewrite updateAccessStats_absent // Hget in Hget'. injection Hget' as <-. lia.
  - destruct (decide (id = k)) as [->|Hne].
    + by rewrite JSMapFacts.get_remove_eq in Hget'.
    + rewrite JSMapFacts.get_remove_ne // Hget in Hget'. injection Hget' as <-. lia.
  - rewrite Hget in Hget'. injection Hget' as <-. lia.
Qed.

(** ** The scenarios of the specification *)

(** Page 2 of 15 records at 10 a page: 5 items, 2 pages, no next page, a
    previous one. *)
Example second_page_of_fifteen :
  ∃ r,
    (listFiles lower (mkListOptions (Some 2) (Some 10) None None) fifteen_files).2
      = Returns r ∧
    length (l_files r) = 5%nat ∧
    total r = 15 ∧
    pages r = JS.Num 2 ∧
    hasNext r = false ∧
    hasPrev r = true.
Proof. eexists. split; [reflexivity|]. by vm_compute. Qed.

(** A page beyond the last one is empty, not an error. *)
Example page_beyond_range :
  ∃ r,
    (listFiles lower (mkListOptions (Some 7) (Some 10) None None) fifteen_files).2
      = Returns r ∧
    l_files r = [] ∧
    hasNext r = false.
Proof. eexists. split; [reflexivity|]. by vm_compute. Qed.

(** The search is case-insensitive and combines with the type filter. *)
Example search_and_type :
  ∃ r,
    (listFiles lower (mkListOptions None None (Some "text/") (Some "NOTES")) three_files).2
      = Returns r ∧
    map Item.fileId (l_files r) = ["c"; "a"] ∧
    l_limit r = 20 ∧
    l_page r = 1.
Proof. eexists. split; [reflexivity|]. by vm_compute. Qed.

(** With a limit of zero the page count is not a number of pages. *)
Example limit_zero :
  ∃ r,
    (listFiles lower (mkListOptions (Some 1) (Some 0) None None) three_files).2
      = Returns r ∧
    pages r = JS.PosInf ∧
    l_files r = [] ∧
    hasNext r = true.
Proof. eexists. split; [reflexivity|]. by vm_compute. Qed.

(** A ten-byte text file, uploaded alone: the record and the statistics. *)
Example upload_notes :
  ∃ w' u stats,
    uploadSingle "bucket" None all_fine (anonymous_single text_upload) empty_world
      = (w', Returns (Json 201 u)) ∧
    Uploaded.mimeType u = "text/plain" ∧
    Uploaded.size u = 10 ∧
    (getUploadStats 1000 1001 (service w')).2 = Returns stats ∧
    totalFiles stats = 1 ∧
    byType stats !! "text" = Some 1 ∧
    s3 w' !! "uploads/anonymous/id-2-notes.txt" ≠ None.
Proof.
  eexists _, _, _. split; [reflexivity|]. simpl.
  split_and!; try reflexivity. by vm_compute.
Qed.

(** Values supplied for the four properties do not survive the save. *)
Example saveFileMetadata_overrides_supplied :
  accessCount notes_again = Some 9 ∧
  lastAccessed notes_again = DateAt 5 ∧
  ∃ r,
    (saveFileMetadata 2000 2001 notes_again new_FileService).2 = Returns r ∧
    accessCount r = Some 0 ∧
    lastAccessed r = Null ∧
    createdAt r = Some 2000 ∧
    updatedAt r = Some 2001.
Proof. split_and!; try reflexivity. by eexists. Qed.

(** * Beyond the claims *)

Set Warnings "-clear-no-such-hyp".

(** ** Export and import *)










(** ** Statistics *)

Lemma fold_add (g : FileRecord → Z) l a :
  fold_left (fun sum file => sum + g file) l a = a + sum_of g l.
Proof.
  revert a. induction l as [|x l IH]; intros a; simpl; first lia.
  rewrite IH. lia.
Qed.

Lemma sum_of_ones l : sum_of (fun _ => 1) l = Z.of_nat (length l).
Proof. induction l as [|x l IH]; simpl; lia. Qed.

(** The loop that fills a tally object: one entry per category met. *)
Lemma tally_lookup (g : FileRecord → Z) l c : ∀ (acc : gmap string Z) n0 v0,
  acc !! c = tallied n0 v0 →
  (n0 = 0%nat → v0 = 0) →
  fold_left
    (fun (acc : gmap string Z) file =>
       let category := getFileCategory (mimeType file) in
       <[category := JS.or_zero (acc !! category) + g file]> acc)
    l acc !! c
  = tallied (n0 + length (in_category c l)) (v0 + sum_of g (in_category c l)).
Proof.
  induction l as [|file l IH]; intros acc n0 v0 Hacc Hzero; simpl.
  - by rewrite Nat.add_0_r Z.add_0_r.
  - rewrite /in_category /=.
    destruct (String.eqb_spec (getFileCategory (mimeType file)) c) as [Heq|Hne].
    + rewrite (IH _ (S n0) (v0 + g file)).
      * rewrite Heq lookup_insert_eq Hacc /=. f_equal.
        destruct n0; simpl; [rewrite Hzero //; lia | by rewrite or_num_zero].
      * done.
      * rewrite /= Nat.add_succ_r Z.add_assoc. done.
    + rewrite (IH _ n0 v0) //. by rewrite lookup_insert_ne.
Qed.

Lemma category_listed m : In (getFileCategory m) categories.
Proof.
  rewrite /getFileCategory /categories.
  repeat match goal with |- context [if ?b then _ else _] => destruct b end;
    simpl; tauto.
Qed.

Lemma over_categories_one (v : Z) c :
  In c categories →
  over_categories (fun c' => if String.eqb c c' then v else 0) = v.
Proof.
  rewrite /categories /=.
  intros [<-|[<-|[<-|[<-|[<-|[<-|[<-|[]]]]]]]]; rewrite /over_categories /=; lia.
Qed.

Lemma over_categories_add h1 h2 :
  over_categories (fun c => h1 c + h2 c) = over_categories h1 + over_categories h2.
Proof. rewrite /over_categories /=. lia. Qed.

Lemma over_categories_ext h1 h2 :
  (∀ c, h1 c = h2 c) → over_categories h1 = over_categories h2.
Proof. intros H. rewrite /over_categories /=. by rewrite !H. Qed.

(** Every record is in exactly one of the seven categories. *)
Lemma over_categories_partition (g : FileRecord → Z) l :
  over_categories (fun c => sum_of g (in_category c l)) = sum_of g l.
Proof.
  induction l as [|file l IH]; first done.
  rewrite /= -IH -(over_categories_one (g file) _ (category_listed (mimeType file))).
  rewrite -over_categories_add. apply over_categories_ext. intros c.
  rewrite /in_category /=. by destruct (String.eqb _ c).
Qed.

Lemma in_category_unlisted c l : ¬ In c categories → in_category c l = [].
Proof.
  intros Hc. induction l as [|x l IH]; first done.
  rewrite /in_category /=.
  destruct (String.eqb_spec (getFileCategory (mimeType x)) c) as [Heq|Hne].
  - destruct Hc. rewrite -Heq. apply category_listed.
  - apply IH.
Qed.

Lemma or_zero_tallied n v : (n = 0%nat → v = 0) → JS.or_zero (tallied n v) = v.
Proof. destruct n; simpl; [by intros -> | intros _; apply or_num_zero]. Qed.

Lemma getUploadStats_run now stamp st :
  ∃ s, getUploadStats now stamp st = (st, Returns s) ∧
       totalFiles s = Z.of_nat (length (JSMap.values (files st))) ∧
       totalSize s = sum_of size (JSMap.values (files st)) ∧
       totalAccesses s = sum_of count_of (JSMap.values (files st)) ∧
       (∀ c, byType s !! c =
             tallied (length (in_category c (JSMap.values (files st))))
               (Z.of_nat (length (in_category c (JSMap.values (files st)))))) ∧
       (∀ c, storageByType s !! c =
             tallied (length (in_category c (JSMap.values (files st))))
               (sum_of size (in_category c (JSMap.values (files st))))) ∧
       avgFileSize s = (if 0 <? totalFiles s
                        then JS.round_div (totalSize s) (totalFiles s) else 0) ∧
       accessesPerFile s = (if 0 <? totalFiles s
                            then JS.round_div (totalAccesses s) (totalFiles s) else 0) ∧
       recentUploads s =
         Z.of_nat (length (List.filter (fun file => now - 86400000 <? uploadedAt file)
                             (JSMap.values (files st)))).
Proof.
  eexists. split; [reflexivity|]. simpl. split_and!; try reflexivity.
  - rewrite (fold_add (fun file => JS.or_num (size file) 0)) /=.
    induction (JSMap.values (files st)) as [|x l IH]; simpl; first done.
    rewrite or_num_zero. simpl in IH. lia.
  - by rewrite (fold_add (fun file => JS.or_zero (accessCount file))).
  - intros c. rewrite (tally_lookup (fun _ => 1) _ c ∅ 0%nat 0) //.
    by rewrite sum_of_ones.
  - intros c. by rewrite (tally_lookup size _ c ∅ 0%nat 0).
Qed.

(** X3. The statistics sort every stored record into exactly one of seven
    categories: [distribution.byType] holds, for each category that has
    at least one record, the exact number of its records and nothing for
    the others, [storageByType] the exact sum of their sizes; the counts
    add up to [totalFiles] and the sizes to [totalSize]. The call leaves
    the index as it is. *)
Theorem getUploadStats_distribution now stamp st :
  ∃ s,
    getUploadStats now stamp st = (st, Returns s) ∧
    (∀ c, byType s !! c =
          tallied (length (in_category c (JSMap.values (files st))))
            (Z.of_nat (length (in_category c (JSMap.values (files st)))))) ∧
    (∀ c, storageByType s !! c =
          tallied (length (in_category c (JSMap.values (files st))))
            (sum_of size (in_category c (JSMap.values (files st))))) ∧
    (∀ c, ¬ In c categories → byType s !! c = None ∧ storageByType s !! c = None) ∧
    over_categories (fun c => JS.or_zero (byType s !! c)) = totalFiles s ∧
    over_categories (fun c => JS.or_zero (storageByType s !! c)) = totalSize s.
Proof.
  destruct (getUploadStats_run now stamp st)
    as (s & Hrun & Hfiles & Hsize & _ & Hby & Hst & _).
  exists s. split_and!; try done.
  - intros c Hc.
    by rewrite Hby Hst in_category_unlisted.
  - rewrite Hfiles -sum_of_ones -over_categories_partition.
    apply over_categories_ext. intros c.
    rewrite Hby or_zero_tallied ?sum_of_ones //.
    by destruct (in_category c _).
  - rewrite Hsize -over_categories_partition.
    apply over_categories_ext. intros c. rewrite Hst or_zero_tallied //.
    by destruct (in_category c _).
Qed.

Lemma getUploadStats_distribution_witness :
  ∃ s,
    getUploadStats 5000 5001 three_files = (three_files, Returns s) ∧
    byType s !! "text" = Some 2 ∧
    byType s !! "images" = Some 1 ∧
    byType s !! "videos" = None ∧
    storageByType s !! "text" = Some 30 ∧
    totalFiles s = 3.
Proof.
  destruct (getUploadStats_distribution 5000 5001 three_files)
    as (s & Hrun & Hby & Hst & _ & Hsum & _).
  exists s. split_and!; [exact Hrun | by rewrite Hby .. | by rewrite Hst |].
  rewrite -Hsum /over_categories /categories /= !Hby. reflexivity.
Defined.

(** X4. The two averages are [0] for an empty index, and otherwise the
    mean rounded to the nearest integer: twice the reported value times
    the number of files is within that number of twice the total. *)
Theorem getUploadStats_averages now stamp st :
  ∃ s,
    getUploadStats now stamp st = (st, Returns s) ∧
    (files st = [] → avgFileSize s = 0 ∧ accessesPerFile s = 0 ∧ totalFiles s = 0) ∧
    (files st ≠ [] →
       0 < totalFiles s ∧
       2 * totalSize s - totalFiles s < 2 * totalFiles s * avgFileSize s
         <= 2 * totalSize s + totalFiles s ∧
       2 * totalAccesses s - totalFiles s < 2 * totalFiles s * accessesPerFile s
         <= 2 * totalAccesses s + totalFiles s).
Proof.
  destruct (getUploadStats_run now stamp st)
    as (s & Hrun & Hfiles & _ & _ & _ & _ & Havg & Hacc & _).
  exists s. split; [done|]. split.
  - intros Hempty. rewrite Hempty /= in Hfiles. by rewrite Havg Hacc Hfiles.
  - intros Hne.
    assert (Hpos : 0 < totalFiles s).
    { rewrite Hfiles /JSMap.values length_map. destruct (files st); [done | simpl; lia]. }
    rewrite Havg Hacc. destruct (Z.ltb_spec 0 (totalFiles s)); last lia.
    rewrite /JS.round_div.
    pose proof (Z.div_mod (2 * totalSize s + totalFiles s) (2 * totalFiles s) ltac:(lia)).
    pose proof (Z.mod_pos_bound (2 * totalSize s + totalFiles s) (2 * totalFiles s) ltac:(lia)).
    pose proof (Z.div_mod (2 * totalAccesses s + totalFiles s) (2 * totalFiles s) ltac:(lia)).
    pose proof (Z.mod_pos_bound (2 * totalAccesses s + totalFiles s) (2 * totalFiles s) ltac:(lia)).
    split_and!; lia.
Qed.

Lemma getUploadStats_averages_witness :
  ∃ s,
    getUploadStats 5000 5001 three_files = (three_files, Returns s) ∧
    0 < totalFiles s ∧
    2 * totalSize s - totalFiles s < 2 * totalFiles s * avgFileSize s ∧
    (getUploadStats 5000 5001 new_FileService).2
      = Returns (mkStats 0 0 0 0 ∅ ∅ 0 0 5001).
Proof.
  destruct (getUploadStats_averages 5000 5001 three_files) as (s & Hrun & _ & Hfull).
  destruct Hfull as (Hpos & [Hlow _] & _); first discriminate.
  exists s. split_and!; [exact Hrun | exact Hpos | exact Hlow | reflexivity].
Defined.

(** How the list of values changes under the map operations. *)
Lemma values_set_present {V} (m : JSMap.t V) k old v :
  JSMap.get m k = Some old →
  ∃ l1 l2, JSMap.values m = l1 ++ old :: l2 ∧
           JSMap.values (JSMap.set m k v) = l1 ++ v :: l2.
Proof.
  induction m as [|[k' v'] m IH]; simpl; first done.
  destruct (String.eqb k k').
  - intros [= ->]. by exists [], (JSMap.values m).
  - intros (l1 & l2 & H1 & H2)%IH. exists (v' :: l1), l2.
    rewrite /JSMap.values /= in H1 H2 |- *. by rewrite H1 H2.
Qed.

Lemma values_set_absent {V} (m : JSMap.t V) k v :
  JSMap.get m k = None → JSMap.values (JSMap.set m k v) = JSMap.values m ++ [v].
Proof. intros H. by rewrite JSMapFacts.set_absent // /JSMap.values map_app. Qed.

Lemma values_remove_present {V} (m : JSMap.t V) k old :
  JSMap.wf m →
  JSMap.get m k = Some old →
  ∃ l1 l2, JSMap.values m = l1 ++ old :: l2 ∧
           JSMap.values (JSMap.remove m k) = l1 ++ l2.
Proof.
  induction m as [|[k' v'] m IH]; simpl; first done.
  rewrite /JSMap.wf /=. intros [Hk' Hm]%NoDup_cons.
  destruct (String.eqb_spec k k') as [->|Hne].
  - intros [= ->]. exists [], (JSMap.values m). split; first done.
    rewrite JSMapFacts.remove_absent //.
    destruct (JSMap.get m k') eqn:E; last done.
    destruct Hk'. apply list_elem_of_In, JSMapFacts.get_Some_keys. eauto.
  - intros (l1 & l2 & H1 & H2)%IH; last done. exists (v' :: l1), l2.
    rewrite /JSMap.values /= in H1 H2 |- *. by rewrite H1 H2.
Qed.

Lemma sum_of_app g l1 l2 : sum_of g (l1 ++ l2) = sum_of g l1 + sum_of g l2.
Proof. induction l1 as [|x l1 IH]; simpl; lia. Qed.

Lemma in_category_app c l1 l2 :
  in_category c (l1 ++ l2) = in_category c l1 ++ in_category c l2.
Proof. apply List.filter_app. Qed.

Lemma in_category_same c (x y : FileRecord) l1 l2 :
  mimeType x = mimeType y →
  length (in_category c (l1 ++ x :: l2)) = length (in_category c (l1 ++ y :: l2)).
Proof.
  intros H. rewrite !in_category_app !length_app /in_category /= H.
  by destruct (String.eqb _ c).
Qed.

Lemma in_category_same_size c (x y : FileRecord) l1 l2 :
  mimeType x = mimeType y → size x = size y →
  sum_of size (in_category c (l1 ++ x :: l2)) = sum_of size (in_category c (l1 ++ y :: l2)).
Proof.
  intros H Hs. rewrite !in_category_app !sum_of_app /in_category /= H.
  destruct (String.eqb _ c); simpl; lia.
Qed.

(** X5. An access shows in the statistics as exactly one more access and
    nothing else: after [updateAccessStats] on a stored id [totalAccesses]
    is one higher, and the number of files, the total size, both
    distributions and the count of recent uploads are as before. *)
Theorem access_shows_in_stats ta tu id st r now stamp :
  JSMap.get (files st) id = Some r →
  ∃ s s',
    stats_of now stamp st = Some s ∧
    stats_of now stamp (updateAccessStats ta tu id st).1 = Some s' ∧
    totalAccesses s' = totalAccesses s + 1 ∧
    totalFiles s' = totalFiles s ∧
    totalSize s' = totalSize s ∧
    byType s' = byType s ∧
    storageByType s' = storageByType s ∧
    recentUploads s' = recentUploads s.
Proof.
  intros Hget.
  destruct (getUploadStats_run now stamp st)
    as (s & Hrun & Hfiles & Hsize & Hacc & Hby & Hst & _ & _ & Hrecent).
  destruct (getUploadStats_run now stamp (updateAccessStats ta tu id st).1)
    as (s' & Hrun' & Hfiles' & Hsize' & Hacc' & Hby' & Hst' & _ & _ & Hrecent').
  exists s, s'. rewrite /stats_of Hrun Hrun' /=.
  rewrite /updateAccessStats /try_catch /bind /gets /modify /ret Hget /=
    in Hfiles' Hsize' Hacc' Hby' Hst' Hrecent'.
  destruct (values_set_present (files st) id r
              (set_updatedAt (Some tu)
                 (set_lastAccessed (DateAt ta)
                    (set_accessCount (Some (JS.or_zero (accessCount r) + 1)) r))) Hget)
    as (l1 & l2 & Hold & Hnew).
  rewrite Hnew in Hfiles' Hsize' Hacc' Hby' Hst' Hrecent'.
  rewrite Hold in Hfiles Hsize Hacc Hby Hst Hrecent.
  split_and!; try done.
  - rewrite Hacc Hacc' !sum_of_app /= /count_of /= or_num_zero. lia.
  - rewrite Hfiles Hfiles' !length_app /=. done.
  - rewrite Hsize Hsize' !sum_of_app /=. done.
  - apply map_eq. intros c. rewrite Hby Hby'.
    by rewrite (in_category_same c _ r).
  - apply map_eq. intros c. rewrite Hst Hst'.
    by rewrite (in_category_same c _ r) // (in_category_same_size c _ r).
  - rewrite Hrecent Hrecent' !List.filter_app !length_app /=.
    by destruct (now - 86400000 <? uploadedAt r).
Qed.

Lemma access_shows_in_stats_witness :
  ∃ s s',
    stats_of 5000 5001 three_files = Some s ∧
    stats_of 5000 5001 (updateAccessStats 4000 4001 "b" three_files).1 = Some s' ∧
    totalAccesses s = 0 ∧
    totalAccesses s' = 1 ∧
    byType s' = byType s.
Proof.
  destruct (access_shows_in_stats 4000 4001 "b" three_files
              (set_lastAccessed Null
                 (set_accessCount (Some 0)
                    (set_updatedAt (Some 3000)
                       (set_createdAt (Some 3000)
                          (record_at "b" "cat.png" "image/png" 2048 3000)))))
              5000 5001 eq_refl)
    as (s & s' & Hs & Hs' & Hacc & _ & _ & Hby & _).
  exists s, s'.
  assert (H0 : totalAccesses s = 0).
  { revert Hs. rewrite /stats_of /=. by intros [= <-]. }
  split_and!; [exact Hs | exact Hs' | exact H0 | by rewrite Hacc H0 | exact Hby].
Defined.

(** X6. Saving shows in the statistics as the code has it. Under a new
    id it adds one file with its size and no access. Under an id that is
    already stored the number of files stays, the size is exchanged, and
    the accesses counted for the replaced record are gone from
    [totalAccesses]. *)
Theorem save_shows_in_stats tc tu metadata st now stamp :
  ∃ s s',
    stats_of now stamp st = Some s ∧
    stats_of now stamp (saveFileMetadata tc tu metadata st).1 = Some s' ∧
    (JSMap.get (files st) (fileId metadata) = None →
       totalFiles s' = totalFiles s + 1 ∧
       totalSize s' = totalSize s + size metadata ∧
       totalAccesses s' = totalAccesses s) ∧
    (∀ old, JSMap.get (files st) (fileId metadata) = Some old →
       totalFiles s' = totalFiles s ∧
       totalSize s' = totalSize s - size old + size metadata ∧
       totalAccesses s' = totalAccesses s - count_of old).
Proof.
  destruct (getUploadStats_run now stamp st)
    as (s & Hrun & Hfiles & Hsize & Hacc & _).
  destruct (getUploadStats_run now stamp (saveFileMetadata tc tu metadata st).1)
    as (s' & Hrun' & Hfiles' & Hsize' & Hacc' & _).
  exists s, s'. rewrite /stats_of Hrun Hrun' /=.
  rewrite /saveFileMetadata /try_catch /bind /modify /ret /= in Hfiles' Hsize' Hacc'.
  split_and!; try done.
  - intros Hnew. rewrite (values_set_absent _ _ _ Hnew) in Hfiles' Hsize' Hacc'.
    rewrite Hfiles' Hsize' Hacc' Hfiles Hsize Hacc !sum_of_app length_app /=.
    rewrite /count_of /= or_num_zero. split_and!; lia.
  - intros old Hold.
    destruct (values_set_present (files st) (fileId metadata) old
                (set_lastAccessed Null
                   (set_accessCount (Some 0)
                      (set_updatedAt (Some tu) (set_createdAt (Some tc) metadata)))) Hold)
      as (l1 & l2 & Hvals & Hvals').
    rewrite Hvals' in Hfiles' Hsize' Hacc'. rewrite Hvals in Hfiles Hsize Hacc.
    rewrite Hfiles' Hsize' Hacc' Hfiles Hsize Hacc !sum_of_app !length_app /=.
    rewrite /count_of /= or_num_zero. split_and!; lia.
Qed.

Lemma save_shows_in_stats_witness :
  ∃ s s',
    stats_of 5000 5001 (visits [(10, 11); (20, 21)] "f-1" with_notes) = Some s ∧
    stats_of 5000 5001
      (saveFileMetadata 2000 2001 notes_again
         (visits [(10, 11); (20, 21)] "f-1" with_notes)).1 = Some s' ∧
    totalAccesses s = 2 ∧
    totalFiles s' = totalFiles s ∧
    totalAccesses s' = 0.
Proof.
  destruct (save_shows_in_stats 2000 2001 notes_again
              (visits [(10, 11); (20, 21)] "f-1" with_notes) 5000 5001)
    as (s & s' & Hs & Hs' & _ & Hold).
  destruct (Hold _ eq_refl) as (Hfiles & _ & Hacc).
  exists s, s'.
  assert (H2 : totalAccesses s = 2).
  { revert Hs. rewrite /stats_of /=. by intros [= <-]. }
  split_and!; [exact Hs | exact Hs' | exact H2 | exact Hfiles |].
  rewrite Hacc H2. reflexivity.
Defined.

(** X7. Deleting a stored record takes exactly that record out of the
    statistics: one file less, its size and its accesses off the totals.
    (The keys of the map are distinct, as in every reachable state.) *)
Theorem delete_shows_in_stats id st r now stamp :
  JSMap.wf (files st) →
  JSMap.get (files st) id = Some r →
  ∃ s s',
    stats_of now stamp st = Some s ∧
    stats_of now stamp (deleteFileMetadata id st).1 = Some s' ∧
    totalFiles s' = totalFiles s - 1 ∧
    totalSize s' = totalSize s - size r ∧
    totalAccesses s' = totalAccesses s - count_of r.
Proof.
  intros Hwf Hget.
  destruct (getUploadStats_run now stamp st)
    as (s & Hrun & Hfiles & Hsize & Hacc & _).
  destruct (getUploadStats_run now stamp (deleteFileMetadata id st).1)
    as (s' & Hrun' & Hfiles' & Hsize' & Hacc' & _).
  exists s, s'. rewrite /stats_of Hrun Hrun' /=.
  rewrite /deleteFileMetadata /try_catch /bind /modify /gets /ret /= in Hfiles' Hsize' Hacc'.
  destruct (values_remove_present (files st) id r Hwf Hget) as (l1 & l2 & Hvals & Hvals').
  rewrite Hvals' in Hfiles' Hsize' Hacc'. rewrite Hvals in Hfiles Hsize Hacc.
  rewrite Hfiles' Hsize' Hacc' Hfiles Hsize Hacc !sum_of_app !length_app /=.
  split_and!; try done; lia.
Qed.

Lemma delete_shows_in_stats_witness :
  ∃ s s',
    stats_of 5000 5001 three_files = Some s ∧
    stats_of 5000 5001 (deleteFileMetadata "b" three_files).1 = Some s' ∧
    totalFiles s = 3 ∧
    totalFiles s' = 2 ∧
    totalSize s' = 30.
Proof.
  assert (Hwf : service_wf three_files).
  { apply service_wf_save, service_wf_save, service_wf_save, service_wf_new. }
  destruct (delete_shows_in_stats "b" three_files
              (set_lastAccessed Null
                 (set_accessCount (Some 0)
                    (set_updatedAt (Some 3000)
                       (set_createdAt (Some 3000)
                          (record_at "b" "cat.png" "image/png" 2048 3000)))))
              5000 5001 (proj1 Hwf) eq_refl)
    as (s & s' & Hs & Hs' & Hfiles & Hsize & _).
  exists s, s'.
  assert (H3 : totalFiles s = 3 ∧ totalSize s = 2078).
  { revert Hs. rewrite /stats_of /=. by intros [= <-]. }
  destruct H3 as [H3 H4].
  split_and!; [exact Hs | exact Hs' | exact H3 | by rewrite Hfiles H3 | by rewrite Hsize H4].
Defined.

(** ** The file controller *)

Ltac run_files :=
  rewrite /FileController.getFile /FileController.deleteFile
    /FileController.createShareableLink /FileController.getFileMetadata
    /FileController.listFiles /UploadController.getPresignedUrl
    /UploadController.getUploadStats
    /fileService /s3Service /zoom /getFileMetadata /getPresignedUrl
    /getPresignedUploadUrl /deleteFile /s3_deleteObject /answer /not_found
    /try_catch /bind /modify /gets /ret /throw /=.

Lemma world_eta w : mkWorld (service w) (s3 w) (staged w) = w.
Proof. by destruct w. Qed.

Lemma set_service_same w : set_service (service w) w = w.
Proof. by destruct w. Qed.

Lemma set_s3_same w : set_s3 (s3 w) w = w.
Proof. by destruct w. Qed.

(** X8. [getFile] counts an access exactly when it answers with a URL.
    For an id that is not stored it passes a 404 to [next]; when the
    signer fails it passes a 500; in both cases the server is unchanged.
    When it answers, the answer describes the stored record and the
    record has one access more, with [lastAccessed] set; the bucket, the
    other records and the staged files are as before. *)
Theorem getFile_counts_access env ta tu now req w :
  (JSMap.get (files (service w)) (FileReq.fileId req) = None →
     FileController.getFile env ta tu now req w = (w, Returns (Next not_found))) ∧
  (∀ r e,
     JSMap.get (files (service w)) (FileReq.fileId req) = Some r →
     signed env = Throws e →
     FileController.getFile env ta tu now req w =
       (w, Returns (Next (AppErr (mkAppError
                                    ("Failed to generate access URL: " +:+ exn_message e)
                                    500))))) ∧
  (∀ r url,
     JSMap.get (files (service w)) (FileReq.fileId req) = Some r →
     signed env = Returns url →
     ∃ w' r',
       FileController.getFile env ta tu now req w =
         (w', Returns (Json 200
                         (FileInfo.mk (FileReq.fileId req) (originalName r) (mimeType r)
                            (size r) url
                            (now + default 3600 (FileReq.expires req) * 1000)
                            (uploadedAt r)))) ∧
       JSMap.get (files (service w')) (FileReq.fileId req) = Some r' ∧
       count_of r' = count_of r + 1 ∧
       lastAccessed r' = DateAt ta ∧
       (∀ k, k ≠ FileReq.fileId req →
          JSMap.get (files (service w')) k = JSMap.get (files (service w)) k) ∧
       s3 w' = s3 w ∧
       staged w' = staged w).
Proof.
  split_and!.
  - intros Hget. run_files. by rewrite Hget /= ?set_service_same ?set_s3_same.
  - intros r e Hget Hsig. run_files. by rewrite Hget /= Hsig /= ?set_service_same ?set_s3_same.
  - intros r url Hget Hsig.
    destruct (updateAccessStats_present ta tu (FileReq.fileId req) (service w) r Hget)
      as (st' & Hrun & Hget' & Hother & _).
    run_files. rewrite Hget /= Hsig /= ?set_service_same ?set_s3_same Hrun /=.
    eexists _, _. split; [reflexivity|]. simpl. split_and!; try done.
    by rewrite /count_of /= or_num_zero.
Qed.

Lemma getFile_counts_access_witness :
  FileController.getFile all_fine 70 71 72 (FileReq.mk "nobody" None None)
    (mkWorld three_files ∅ ∅)
  = (mkWorld three_files ∅ ∅, Returns (Next not_found)) ∧
  ∃ w' r',
    FileController.getFile all_fine 70 71 72 (FileReq.mk "b" (Some "true") (Some 600))
      (mkWorld three_files ∅ ∅)
    = (w', Returns (Json 200
                      (FileInfo.mk "b" "cat.png" "image/png" 2048 "https://signed"
                         600072 3000))) ∧
    JSMap.get (files (service w')) "b" = Some r' ∧
    count_of r' = 1.
Proof.
  destruct (getFile_counts_access all_fine 70 71 72 (FileReq.mk "nobody" None None)
              (mkWorld three_files ∅ ∅)) as (Hnone & _ & _).
  destruct (getFile_counts_access all_fine 70 71 72
              (FileReq.mk "b" (Some "true") (Some 600)) (mkWorld three_files ∅ ∅))
    as (_ & _ & Hsome).
  split.
  - apply Hnone. reflexivity.
  - destruct (Hsome _ "https://signed" eq_refl eq_refl)
      as (w' & r' & Hrun & Hget & Hcount & _).
    exists w', r'. split_and!; [exact Hrun | exact Hget | exact Hcount].
Defined.

(** X9. [deleteFile] of the controller removes the record only after the
    object store has confirmed. For an id that is not stored it passes a
    404 to [next]; when the store fails it passes a 500 and the record,
    its share log and the bucket are all as before. When the store
    succeeds, the object under the record's [s3Key] is gone from the
    bucket, and the record and its share log are gone from the index;
    other records stay. *)
Theorem deleteFile_store_first gone now req w :
  (JSMap.get (files (service w)) (FileReq.fileId req) = None →
     FileController.deleteFile gone now req w = (w, Returns (Next not_found))) ∧
  (∀ r e,
     JSMap.get (files (service w)) (FileReq.fileId req) = Some r →
     gone = Throws e →
     FileController.deleteFile gone now req w =
       (w, Returns (Next (AppErr (mkAppError
                                    ("File deletion failed: " +:+ exn_message e) 500))))) ∧
  (∀ r u,
     JSMap.get (files (service w)) (FileReq.fileId req) = Some r →
     gone = Returns u →
     ∃ w',
       FileController.deleteFile gone now req w =
         (w', Returns (Json 200 (Removed.mk (FileReq.fileId req) now))) ∧
       JSMap.get (files (service w')) (FileReq.fileId req) = None ∧
       JSMap.get (shareActivity (service w')) (FileReq.fileId req) = None ∧
       s3 w' = delete (s3Key r) (s3 w) ∧
       (∀ k, k ≠ FileReq.fileId req →
          JSMap.get (files (service w')) k = JSMap.get (files (service w)) k) ∧
       staged w' = staged w).
Proof.
  split_and!.
  - intros Hget. run_files. by rewrite Hget /= ?set_service_same ?set_s3_same.
  - intros r e Hget ->. run_files. by rewrite Hget /= ?set_service_same ?set_s3_same.
  - intros r u Hget ->. run_files. rewrite Hget /=.
    eexists. split; [reflexivity|]. simpl. split_and!; try done.
    + apply JSMapFacts.get_remove_eq.
    + apply JSMapFacts.get_remove_eq.
    + intros k Hk. by apply JSMapFacts.get_remove_ne.
Qed.

Lemma deleteFile_store_first_witness :
  FileController.deleteFile (Throws (JsError "timeout")) 80
    (FileReq.mk "b" None None) (mkWorld three_files ∅ ∅)
  = (mkWorld three_files ∅ ∅,
     Returns (Next (AppErr (mkAppError "File deletion failed: timeout" 500)))) ∧
  ∃ w',
    FileController.deleteFile (Returns tt) 80
      (FileReq.mk "b" None None) (mkWorld three_files ∅ ∅)
    = (w', Returns (Json 200 (Removed.mk "b" 80))) ∧
    JSMap.keys (files (service w')) = ["a"; "c"].
Proof.
  destruct (deleteFile_store_first (Throws (JsError "timeout")) 80
              (FileReq.mk "b" None None) (mkWorld three_files ∅ ∅)) as (_ & Hfail & _).
  destruct (deleteFile_store_first (Returns tt) 80
              (FileReq.mk "b" None None) (mkWorld three_files ∅ ∅)) as (_ & _ & Hok).
  split.
  - exact (Hfail _ (JsError "timeout") eq_refl eq_refl).
  - destruct (Hok _ tt eq_refl eq_refl) as (w' & Hrun & _).
    exists w'. split; [exact Hrun|].
    revert Hrun. rewrite /FileController.deleteFile /=. by intros [= <-].
Defined.








(** ** More on the upload pipeline *)

Lemma cleanup_spec path w :
  cleanup path w = (set_staged (staged w ∖ {[path]}) w, Returns tt).
Proof.
  rewrite /cleanup /unlink /try_catch /bind /gets /modify /ret /throw /=.
  destruct (bool_decide_reflect (path ∈ staged w)) as [Hin|Hout]; simpl; first done.
  f_equal. destruct w as [sv objs st]. rewrite /set_staged /=. f_equal.
  simpl in Hout. symmetry. apply difference_disjoint_L. set_solver.
Qed.

(** X14. What [uploadFile] stores when it succeeds. The body is the
    optimised buffer only for an image other than a GIF whose
    optimisation worked; when the optimisation fails the upload goes on
    with the staged original, and a GIF or a non-image is never
    optimised. The content type is the declared one, the object is
    encrypted at rest and tagged with owner, id and declared name. *)
Theorem uploadFile_stored_object (S3_BUCKET : string) (NODE_ENV : option string)
    env file fileId userId objs loc tag :
  type_ok env file = true →
  stored env = Returns (loc, tag) →
  ∃ obj,
    uploadFile S3_BUCKET NODE_ENV env file fileId userId objs =
      (<[key_of userId fileId file := obj]> objs,
       Returns (mkUploadResult (key_of userId fileId file) loc tag S3_BUCKET)) ∧
    Body_ obj =
      (if JS.startsWith (Multer.mimetype file) "image/"
          && negb (String.eqb (Multer.mimetype file) "image/gif")
       then match optimized env with
            | Returns buffer => Buffer buffer
            | Throws _ => Stream (Multer.path file)
            end
       else Stream (Multer.path file)) ∧
    ContentType obj = Multer.mimetype file ∧
    ServerSideEncryption obj = "AES256" ∧
    Bucket obj = S3_BUCKET ∧
    (md_user_id obj, md_file_id obj, md_original_name obj) =
      (userId, fileId, Multer.originalname file).
Proof.
  rewrite /type_ok. intros Hok Hst. run_pipeline. rewrite Hst.
  destruct (sniffed env) as [[mime|]|]; simpl; try done; rewrite ?Hok /=;
    destruct (JS.startsWith (Multer.mimetype file) "image/"
              && negb (String.eqb (Multer.mimetype file) "image/gif")); simpl;
    try destruct (optimized env); simpl;
    eexists; split_and!; reflexivity.
Qed.

Lemma uploadFile_stored_object_witness :
  ∃ obj,
    (uploadFile "bucket" None all_fine png_upload "id-2" "anonymous" ∅).1
      !! "uploads/anonymous/id-2-report.png" = Some obj ∧
    Body_ obj = Stream "/app/uploads/file-1" ∧
    ContentType obj = "image/png".
Proof.
  destruct (uploadFile_stored_object "bucket" None all_fine png_upload "id-2" "anonymous" ∅
              "https://bucket/loc" "etag" eq_refl eq_refl)
    as (obj & Hrun & Hbody & Htype & _).
  exists obj. rewrite Hrun /=. split_and!; [by rewrite lookup_insert_eq | exact Hbody | exact Htype].
Defined.

(** X15. Whatever makes [uploadFile] fail, the caller sees the same kind
    of error: an application error with status 500 whose message starts
    with [File upload failed: ], never a client error; and the bucket is
    as it was. *)
Theorem uploadFile_failure_shape (S3_BUCKET : string) (NODE_ENV : option string)
    env file fileId userId objs objs' e :
  uploadFile S3_BUCKET NODE_ENV env file fileId userId objs = (objs', Throws e) →
  objs' = objs ∧
  (∃ cause, e = AppErr (mkAppError ("File upload failed: " +:+ cause) 500)) ∧
  ¬ client_error e.
Proof.
  run_pipeline.
  destruct (sniffed env) as [[mime|]|cause]; simpl;
    try destruct (String.eqb mime (Multer.mimetype file)); simpl;
    try destruct (JS.startsWith (Multer.mimetype file) "image/"
                  && negb (String.eqb (Multer.mimetype file) "image/gif")); simpl;
    try destruct (optimized env); simpl;
    try destruct (stored env) as [[loc tag]|cause]; simpl;
    intros [= <- <-]; (split_and!; [done | by eexists | simpl; lia]).
Qed.

Lemma uploadFile_failure_shape_witness :
  ∃ e,
    uploadFile "bucket" None finds_pdf png_upload "id-1" "anonymous" ∅ = (∅, Throws e) ∧
    ¬ client_error e.
Proof.
  eexists. split; [reflexivity|].
  exact (proj2 (proj2 (uploadFile_failure_shape "bucket" None finds_pdf png_upload "id-1"
                         "anonymous" ∅ ∅ _ eq_refl))).
Defined.

Section MorePipelineFacts.
Variable S3_BUCKET : string.
Variable NODE_ENV : option string.

Lemma uploadFile_stored_object_id env file fileId userId objs loc tag obj :
  type_ok env file = true →
  stored env = Returns (loc, tag) →
  uploadFile S3_BUCKET NODE_ENV env file fileId userId objs =
    (<[key_of userId fileId file := obj]> objs,
     Returns (mkUploadResult (key_of userId fileId file) loc tag S3_BUCKET)) →
  md_file_id obj = fileId.
Proof.
  rewrite /type_ok. intros Hok Hst. run_pipeline. rewrite Hst.
  destruct (sniffed env) as [[mime|]|]; simpl; try done; rewrite ?Hok /=;
    destruct (JS.startsWith (Multer.mimetype file) "image/"
              && negb (String.eqb (Multer.mimetype file) "image/gif")); simpl;
    try destruct (optimized env); simpl;
    intros [= Heq]; apply (f_equal (fun m => m !! key_of userId fileId file)) in Heq;
    rewrite !lookup_insert_eq in Heq; by injection Heq as <-.
Qed.

(** One pipeline run up to the signed URL, as both handlers make it. *)
Lemma upload_one_world env req file b :
  ∃ b',
    upload_one S3_BUCKET NODE_ENV env req file b = (b', Returns tt) ∧
    staged (world b') = staged (world b) ∖ {[Multer.path file]} ∧
    (type_ok env file && returns (stored env) = false →
       s3 (world b') = s3 (world b) ∧ service (world b') = service (world b)) ∧
    (type_ok env file && returns (stored env) = true →
       ∃ obj r,
         s3 (world b') = <[key_of (owner req) (uuid env) file := obj]> (s3 (world b)) ∧
         files (service (world b')) =
           JSMap.set (files (service (world b))) (uuid env) r ∧
         shareActivity (service (world b')) = shareActivity (service (world b)) ∧
         s3Key r = key_of (owner req) (uuid env) file ∧
         md_file_id obj = uuid env ∧
         (returns (signed env) = false →
            ∃ cause, failedFiles b' =
                       failedFiles b ++ [Failed.mk (Multer.originalname file) cause])).
Proof.
  destruct (type_ok env file && returns (stored env)) eqn:Hup; simpl.
  - apply andb_prop in Hup as [Hok Hst].
    destruct (stored env) as [[loc tag]|] eqn:Hstored; last done.
    destruct (uploadFile_ok S3_BUCKET NODE_ENV env file (uuid env) (owner req)
                (s3 (world b)) loc tag Hok Hstored)
      as (obj & Hrun & _ & _ & _).
    assert (Hid : md_file_id obj = uuid env).
    { destruct (uploadFile_stored_object_id env file (uuid env) (owner req)
                  (s3 (world b)) loc tag obj Hok Hstored Hrun). done. }
    run_controller. rewrite Hrun /=.
    destruct (signed env) as [url|e]; simpl; rewrite cleanup_spec /=;
      eexists; (split; [reflexivity|]); simpl;
      (split_and!; try done; intros _; eexists _, _; split_and!; try done; eauto).
  - destruct (uploadFile_rejects S3_BUCKET NODE_ENV env file (uuid env) (owner req)
                (s3 (world b)) Hup) as (e & Hrun).
    run_controller. rewrite Hrun /= cleanup_spec /=.
    eexists. split; [reflexivity|]. simpl. split_and!; try done.
Qed.
End MorePipelineFacts.

(** X16. When [uploadSingle] answers 201, the index and the bucket agree:
    the record is stored under the fresh id with the key as [s3Key], no
    access counted, and the bucket holds the object under that key; the
    answer names the file as declared; the staged file is gone. *)
Theorem uploadSingle_index_and_bucket_agree (S3_BUCKET : string)
    (NODE_ENV : option string) env req file w loc tag url :
  Req.file req = Some file →
  type_ok env file = true →
  stored env = Returns (loc, tag) →
  signed env = Returns url →
  ∃ w' r obj,
    uploadSingle S3_BUCKET NODE_ENV env req w =
      (w', Returns (Json 201
                      (Uploaded.mk (uuid env) (Multer.originalname file)
                         (Multer.mimetype file) (Multer.size file) loc url
                         (t_uploaded env)))) ∧
    JSMap.get (files (service w')) (uuid env) = Some r ∧
    s3Key r = key_of (owner req) (uuid env) file ∧
    (originalName r, mimeType r, size r, userId r) =
      (Multer.originalname file, Multer.mimetype file, Multer.size file, owner req) ∧
    accessCount r = Some 0 ∧
    s3 w' !! s3Key r = Some obj ∧
    ContentType obj = Multer.mimetype file ∧
    staged w' = staged w ∖ {[Multer.path file]}.
Proof.
  intros Hfile Hok Hst Hsig.
  destruct (uploadFile_ok S3_BUCKET NODE_ENV env file (uuid env) (owner req) (s3 w)
              loc tag Hok Hst) as (obj & Hrun & _ & Htype & _).
  run_controller. rewrite Hfile /= Hrun /= cleanup_spec /= Hsig /=.
  eexists _, _, obj. split; [reflexivity|]. simpl.
  rewrite JSMapFacts.get_set_eq. split_and!; try done.
  by rewrite lookup_insert_eq.
Qed.

Lemma uploadSingle_index_and_bucket_agree_witness :
  ∃ w' r obj,
    uploadSingle "bucket" None all_fine (anonymous_single text_upload)
      (mkWorld three_files ∅ {[ "/app/uploads/file-2" ]})
    = (w', Returns (Json 201
                      (Uploaded.mk "id-2" "notes.txt" "text/plain" 10
                         "https://bucket/loc" "https://signed" 201))) ∧
    JSMap.get (files (service w')) "id-2" = Some r ∧
    s3Key r = "uploads/anonymous/id-2-notes.txt" ∧
    s3 w' !! "uploads/anonymous/id-2-notes.txt" = Some obj ∧
    staged w' = ∅.
Proof.
  destruct (uploadSingle_index_and_bucket_agree "bucket" None all_fine
              (anonymous_single text_upload) text_upload
              (mkWorld three_files ∅ {[ "/app/uploads/file-2" ]})
              "https://bucket/loc" "etag" "https://signed"
              eq_refl eq_refl eq_refl eq_refl)
    as (w' & r & obj & Hrun & Hget & Hkey & _ & _ & Hobj & _ & Hstaged).
  exists w', r, obj. split_and!; [exact Hrun | exact Hget | exact Hkey | |].
  - rewrite Hkey in Hobj. exact Hobj.
  - rewrite Hstaged /=. apply difference_diag_L.
Defined.

(** X17. An upload can be stored and recorded and still be reported as
    failed: when the signer fails after the object store and the index
    have accepted the file, [uploadSingle] passes a 500 to [next], and
    [uploadMultiple] lists the file under [failed], while the record and
    the object stay where they are. *)
Theorem upload_kept_though_reported_failed (S3_BUCKET : string)
    (NODE_ENV : option string) env req file w b loc tag e :
  Req.file req = Some file →
  type_ok env file = true →
  stored env = Returns (loc, tag) →
  signed env = Throws e →
  (∃ w' r obj,
     uploadSingle S3_BUCKET NODE_ENV env req w =
       (w', Returns (Next (AppErr (mkAppError
                                     ("Failed to generate access URL: " +:+ exn_message e)
                                     500)))) ∧
     JSMap.get (files (service w')) (uuid env) = Some r ∧
     s3Key r = key_of (owner req) (uuid env) file ∧
     s3 w' !! s3Key r = Some obj) ∧
  (∃ b' r obj,
     upload_one S3_BUCKET NODE_ENV env req file b = (b', Returns tt) ∧
     failedFiles b' =
       failedFiles b
         ++ [Failed.mk (Multer.originalname file)
               ("Failed to generate access URL: " +:+ exn_message e)] ∧
     uploadedFiles b' = uploadedFiles b ∧
     JSMap.get (files (service (world b'))) (uuid env) = Some r ∧
     s3 (world b') !! s3Key r = Some obj).
Proof.
  intros Hfile Hok Hst Hsig. split.
  - destruct (uploadFile_ok S3_BUCKET NODE_ENV env file (uuid env) (owner req) (s3 w)
                loc tag Hok Hst) as (obj & Hrun & _).
    run_controller. rewrite Hfile /= Hrun /= !cleanup_spec /= Hsig /=.
    destruct (negb (String.eqb (Multer.path file) EmptyString)); simpl;
      rewrite ?cleanup_spec /=; eexists _, _, obj; (split; [reflexivity|]); simpl;
      rewrite JSMapFacts.get_set_eq; split_and!; try done; by rewrite lookup_insert_eq.
  - destruct (uploadFile_ok S3_BUCKET NODE_ENV env file (uuid env) (owner req)
                (s3 (world b)) loc tag Hok Hst) as (obj & Hrun & _).
    run_controller. rewrite Hrun /= Hsig /= cleanup_spec /=.
    eexists _, _, obj. split; [reflexivity|]. simpl.
    rewrite JSMapFacts.get_set_eq. split_and!; try done. by rewrite lookup_insert_eq.
Qed.

Lemma upload_kept_though_reported_failed_witness :
  ∃ w' r,
    uploadSingle "bucket" None signer_down (anonymous_single text_upload) empty_world
    = (w', Returns (Next (AppErr (mkAppError
                                    "Failed to generate access URL: no credentials" 500)))) ∧
    JSMap.get (files (service w')) "id-3" = Some r ∧
    s3 w' !! "uploads/anonymous/id-3-notes.txt" ≠ None.
Proof.
  destruct (upload_kept_though_reported_failed "bucket" None signer_down
              (anonymous_single text_upload) text_upload empty_world
              (mkBatch empty_world [] []) "https://bucket/loc" "etag"
              (JsError "no credentials") eq_refl eq_refl eq_refl eq_refl)
    as ((w' & r & obj & Hrun & Hget & Hkey & Hobj) & _).
  exists w', r. split_and!; [exact Hrun | exact Hget |].
  rewrite Hkey in Hobj. change (key_of _ _ _) with "uploads/anonymous/id-3-notes.txt" in Hobj.
  by rewrite Hobj.
Defined.

(** X18. A request without a file is the client's error and reaches the
    caller as one: [uploadSingle] without a file, and [uploadMultiple]
    without files or with an empty list, pass a 400 to [next] and leave
    the server as it was. *)
Theorem uploads_without_files_are_400 (S3_BUCKET : string) (NODE_ENV : option string)
    env envs req w :
  (Req.file req = None →
     uploadSingle S3_BUCKET NODE_ENV env req w =
       (w, Returns (Next (AppErr (mkAppError "No file provided" 400))))) ∧
  (Req.files req = None ∨ Req.files req = Some [] →
     uploadMultiple S3_BUCKET NODE_ENV envs req w =
       (w, Returns (Next (AppErr (mkAppError "No files provided" 400))))) ∧
  client_error (AppErr (mkAppError "No file provided" 400)) ∧
  client_error (AppErr (mkAppError "No files provided" 400)).
Proof.
  split_and!.
  - intros Hfile. run_controller. by rewrite Hfile.
  - intros [Hfiles|Hfiles];
      by rewrite /uploadMultiple /uploadMultiple_body /try_catch /bind /ret /throw Hfiles.
  - simpl. lia.
  - simpl. lia.
Qed.

Lemma uploads_without_files_are_400_witness :
  uploadSingle "bucket" None all_fine (anonymous_batch []) empty_world
    = (empty_world, Returns (Next (AppErr (mkAppError "No file provided" 400)))) ∧
  uploadMultiple "bucket" None second_fails (anonymous_batch []) empty_world
    = (empty_world, Returns (Next (AppErr (mkAppError "No files provided" 400)))).
Proof.
  destruct (uploads_without_files_are_400 "bucket" None all_fine second_fails
              (anonymous_batch []) empty_world) as (Hsingle & Hmulti & _).
  split; [apply Hsingle; reflexivity | apply Hmulti; right; reflexivity].
Defined.

Section BatchFacts.
Variable S3_BUCKET : string.
Variable NODE_ENV : option string.

Lemma has_set_same {V} (m : JSMap.t V) k v : JSMap.has (JSMap.set m k v) k = true.
Proof. by rewrite /JSMap.has JSMapFacts.get_set_eq. Qed.

Lemma has_set_keep {V} (m : JSMap.t V) k k' v :
  JSMap.has m k' = true → JSMap.has (JSMap.set m k v) k' = true.
Proof.
  destruct (decide (k = k')) as [->|Hne]; first by rewrite has_set_same.
  by rewrite /JSMap.has JSMapFacts.get_set_ne.
Qed.

Lemma upload_each_world envs req l : ∀ i b,
  ∃ b',
    upload_each S3_BUCKET NODE_ENV envs i req l b = (b', Returns tt) ∧
    staged (world b') = staged (world b) ∖ list_to_set (map Multer.path l) ∧
    (∀ k, JSMap.has (files (service (world b))) k = true →
          JSMap.has (files (service (world b'))) k = true) ∧
    (∀ k, is_Some (s3 (world b) !! k) → is_Some (s3 (world b') !! k)) ∧
    (∀ job, In job (jobs envs i l) →
            type_ok job.1 job.2 && returns (stored job.1) = true →
            JSMap.has (files (service (world b'))) (uuid job.1) = true ∧
            is_Some (s3 (world b') !! key_of (owner req) (uuid job.1) job.2)).
Proof.
  induction l as [|file l IH]; intros i b.
  - exists b. simpl. split_and!; try done. set_solver.
  - destruct (upload_one_world S3_BUCKET NODE_ENV (envs i) req file b)
      as (b1 & Hone & Hstaged1 & Hrej & Hacc).
    destruct (IH (S i) b1) as (b' & Hrest & Hstaged & Hfiles & Hobjs & Hjobs).
    exists b'. split; first by rewrite /= /bind Hone.
    assert (Hkeep : (∀ k, JSMap.has (files (service (world b))) k = true →
                          JSMap.has (files (service (world b1))) k = true) ∧
                    (∀ k, is_Some (s3 (world b) !! k) → is_Some (s3 (world b1) !! k))).
    { destruct (type_ok (envs i) file && returns (stored (envs i))) eqn:Hup.
      - destruct (Hacc eq_refl) as (obj & r & -> & -> & _). split.
        + intros k. apply has_set_keep.
        + intros k Hk. destruct (decide (key_of (owner req) (uuid (envs i)) file = k))
            as [->|Hne]; [by rewrite lookup_insert_eq | by rewrite lookup_insert_ne].
      - destruct (Hrej eq_refl) as [-> ->]. done. }
    destruct Hkeep as [Hkeep_files Hkeep_objs].
    split_and!.
    + rewrite Hstaged Hstaged1 /=. set_solver.
    + eauto.
    + eauto.
    + intros job [<-|Hin] Hup; simpl in *.
      * destruct (Hacc Hup) as (obj & r & Hs3 & Hf & _). split.
        -- apply Hfiles. rewrite Hf. apply has_set_same.
        -- apply Hobjs. by rewrite Hs3 lookup_insert_eq.
      * by apply Hjobs.
Qed.
End BatchFacts.

(** X19. The staged files of a request are released on every path: after
    [uploadSingle] the file's temporary path is no longer staged, whether
    the upload was stored, rejected or failed (for a path that is not
    empty), and after [uploadMultiple] none of the batch's paths is;
    other staged files are left alone. *)
Theorem staged_files_released (S3_BUCKET : string) (NODE_ENV : option string)
    env envs req w :
  (∀ file, Req.file req = Some file →
     Multer.path file ≠ EmptyString →
     staged (uploadSingle S3_BUCKET NODE_ENV env req w).1
       = staged w ∖ {[Multer.path file]}) ∧
  (∀ l, Req.files req = Some l →
     staged (uploadMultiple S3_BUCKET NODE_ENV envs req w).1
       = staged w ∖ list_to_set (map Multer.path l)).
Proof.
  split.
  - intros file Hfile Hpath.
    assert (Hne : negb (String.eqb (Multer.path file) EmptyString) = true).
    { by destruct (String.eqb_spec (Multer.path file) EmptyString). }
    destruct (type_ok env file && returns (stored env)) eqn:Hup.
    + apply andb_prop in Hup as [Hok Hst].
      destruct (stored env) as [[loc tag]|] eqn:Hstored; last done.
      destruct (uploadFile_ok S3_BUCKET NODE_ENV env file (uuid env) (owner req) (s3 w)
                  loc tag Hok Hstored) as (obj & Hrun & _).
      run_controller. rewrite Hfile /= Hrun /= !cleanup_spec /=.
      destruct (signed env); simpl; rewrite ?Hne ?cleanup_spec /=; set_solver.
    + destruct (uploadFile_rejects S3_BUCKET NODE_ENV env file (uuid env) (owner req)
                  (s3 w) Hup) as (e & Hrun).
      run_controller. by rewrite Hfile /= Hrun /= Hne cleanup_spec.
  - intros l Hfiles.
    rewrite /uploadMultiple /uploadMultiple_body /try_catch /bind /gets /ret /throw Hfiles.
    destruct l as [|file rest]; simpl; first set_solver.
    destruct (upload_each_world S3_BUCKET NODE_ENV envs req (file :: rest) 0
                (mkBatch w [] [])) as (b' & Hrun & Hstaged & _).
    simpl in Hrun. by rewrite Hrun /= Hstaged.
Qed.

Lemma staged_files_released_witness :
  staged (uploadSingle "bucket" None finds_pdf (anonymous_single png_upload)
            (mkWorld new_FileService ∅ {[ "/app/uploads/file-1"; "/app/uploads/other" ]})).1
    = {[ "/app/uploads/file-1"; "/app/uploads/other" ]} ∖ {[ "/app/uploads/file-1" ]} ∧
  staged (uploadMultiple "bucket" None second_fails
            (anonymous_batch [text_upload; png_upload])
            (mkWorld new_FileService ∅ {[ "/app/uploads/file-1"; "/app/uploads/other" ]})).1
    = {[ "/app/uploads/file-1"; "/app/uploads/other" ]}
        ∖ list_to_set ["/app/uploads/file-2"; "/app/uploads/file-1"].
Proof.
  destruct (staged_files_released "bucket" None finds_pdf second_fails
              (anonymous_single png_upload)
              (mkWorld new_FileService ∅ {[ "/app/uploads/file-1"; "/app/uploads/other" ]}))
    as (Hsingle & _).
  destruct (staged_files_released "bucket" None finds_pdf second_fails
              (anonymous_batch [text_upload; png_upload])
              (mkWorld new_FileService ∅ {[ "/app/uploads/file-1"; "/app/uploads/other" ]}))
    as (_ & Hmulti).
  split.
  - apply (Hsingle png_upload); [reflexivity | discriminate].
  - apply (Hmulti [text_upload; png_upload]). reflexivity.
Defined.

(** X20. A batch never loses what it has accepted. Every file of the
    batch that passed the type check and was taken by the object store
    has, when [uploadMultiple] is done, a record under its id and an
    object under its key, whatever happened to the files after it; and no
    record or object that was there before the batch is gone. *)
Theorem uploadMultiple_keeps_accepted (S3_BUCKET : string) (NODE_ENV : option string)
    envs req l w :
  Req.files req = Some l →
  (∀ job, In job (jobs envs 0 l) →
     type_ok job.1 job.2 && returns (stored job.1) = true →
     JSMap.has (files (service (uploadMultiple S3_BUCKET NODE_ENV envs req w).1))
       (uuid job.1) = true ∧
     is_Some (s3 (uploadMultiple S3_BUCKET NODE_ENV envs req w).1
                !! key_of (owner req) (uuid job.1) job.2)) ∧
  (∀ k, JSMap.has (files (service w)) k = true →
     JSMap.has (files (service (uploadMultiple S3_BUCKET NODE_ENV envs req w).1)) k = true) ∧
  (∀ k, is_Some (s3 w !! k) →
     is_Some (s3 (uploadMultiple S3_BUCKET NODE_ENV envs req w).1 !! k)).
Proof.
  intros Hfiles.
  rewrite /uploadMultiple /uploadMultiple_body /try_catch /bind /gets /ret /throw Hfiles.
  destruct l as [|file rest]; simpl; first by split_and!.
  destruct (upload_each_world S3_BUCKET NODE_ENV envs req (file :: rest) 0
              (mkBatch w [] [])) as (b' & Hrun & _ & Hf & Ho & Hjobs).
  simpl in Hrun. rewrite Hrun /=. split_and!; try done.
Qed.

Lemma uploadMultiple_keeps_accepted_witness :
  JSMap.has
    (files (service (uploadMultiple "bucket" None second_fails
                       (anonymous_batch [text_upload; png_upload; text_upload])
                       empty_world).1)) "id-2" = true ∧
  is_Some (s3 (uploadMultiple "bucket" None second_fails
                 (anonymous_batch [text_upload; png_upload; text_upload])
                 empty_world).1 !! "uploads/anonymous/id-2-notes.txt").
Proof.
  destruct (uploadMultiple_keeps_accepted "bucket" None second_fails
              (anonymous_batch [text_upload; png_upload; text_upload])
              [text_upload; png_upload; text_upload] empty_world eq_refl)
    as (Hjobs & _).
  apply (Hjobs (all_fine, text_upload)); [by left | reflexivity].
Defined.

Lemma reachable_index_ok_witness :
  reachable three_files ∧ index_ok three_files.
Proof.
  assert (Hreach : reachable three_files).
  { apply (reachable_after (Save 3001 3001 (record_at "c" "notes-2.txt" "text/plain" 20 3000))).
    apply (reachable_after (Save 3000 3000 (record_at "b" "cat.png" "image/png" 2048 3000))).
    apply (reachable_after (Save 1000 1000 (record_at "a" "Notes.txt" "text/plain" 10 1000))).
    apply reachable_new. }
  split; [exact Hreach | exact (reachable_index_ok three_files Hreach)].
Defined.

Lemma count_monotone_witness :
  ∃ r r',
    JSMap.get (files three_files) "b" = Some r ∧
    JSMap.get (files (after (Access 4000 4001 "b") three_files)) "b" = Some r' ∧
    count_of r <= count_of r'.
Proof.
  eexists _, _. split; [reflexivity|]. split; [reflexivity|].
  eapply (count_monotone (Access 4000 4001 "b") three_files "b");
    [reflexivity | reflexivity | discriminate].
Defined.

(** ** The file filter *)

Lemma split_commas_nonempty s : split_commas s ≠ [].
Proof.
  destruct s as [|c s]; simpl; first done.
  destruct (Ascii.eqb c ","); first done. by destruct (split_commas s).
Qed.

Lemma join_split s : join_commas (split_commas s) = s.
Proof.
  induction s as [|c s IH]; first done.
  simpl. destruct (Ascii.eqb_spec c ","%char) as [->|Hne].
  - pose proof (split_commas_nonempty s).
    destruct (split_commas s) as [|p ps]; first done. by rewrite /= -IH.
  - pose proof (split_commas_nonempty s).
    destruct (split_commas s) as [|p ps]; first done.
    simpl in *. destruct ps; simpl in *; by rewrite -IH.
Qed.

Lemma split_commas_free s piece : In piece (split_commas s) → comma_free piece = true.
Proof.
  revert piece. induction s as [|c s IH]; intros piece; simpl.
  - by intros [<-|[]].
  - destruct (Ascii.eqb c ","%char) eqn:Ec.
    + intros [<-|Hin]; [done | by apply IH].
    + pose proof (split_commas_nonempty s).
      destruct (split_commas s) as [|p ps]; first done.
      intros [<-|Hin]; simpl.
      * rewrite Ec /=. apply IH. by left.
      * apply IH. by right.
Qed.

(** X23. The file filter matches the declared type exactly against the
    entries of [ALLOWED_FILE_TYPES] cut at the commas: the entries put
    together again with commas are the variable itself, no entry
    contains a comma, and a file passes exactly when its declared type
    is one of the entries, so a type with a comma in it never passes.
    Without the variable the six built-in types pass and nothing else.
    A file that does not pass is turned away with an error that names
    its type. *)
Theorem fileFilter_exact_entries ALLOWED_FILE_TYPES file :
  (∀ s, ALLOWED_FILE_TYPES = Some s →
     join_commas (allowedTypes ALLOWED_FILE_TYPES) = s ∧
     (∀ entry, In entry (allowedTypes ALLOWED_FILE_TYPES) → comma_free entry = true) ∧
     (comma_free (Multer.mimetype file) = false →
        fileFilter ALLOWED_FILE_TYPES file ≠ Returns true)) ∧
  (ALLOWED_FILE_TYPES = None →
     (fileFilter ALLOWED_FILE_TYPES file = Returns true ↔
      In (Multer.mimetype file)
        ["image/jpeg"; "image/png"; "image/gif"; "image/webp"; "application/pdf";
         "text/plain"])) ∧
  (fileFilter ALLOWED_FILE_TYPES file = Returns true ↔
   In (Multer.mimetype file) (allowedTypes ALLOWED_FILE_TYPES)) ∧
  (¬ In (Multer.mimetype file) (allowedTypes ALLOWED_FILE_TYPES) →
   fileFilter ALLOWED_FILE_TYPES file =
     Throws (JsError ("File type " +:+ Multer.mimetype file +:+ " is not allowed"))).
Proof.
  assert (Hiff : fileFilter ALLOWED_FILE_TYPES file = Returns true ↔
                 In (Multer.mimetype file) (allowedTypes ALLOWED_FILE_TYPES)).
  { rewrite /fileFilter.
    destruct (existsb _ _) eqn:E.
    - split; first intros _; last done.
      apply existsb_exists in E as (x & Hin & ->%String.eqb_eq). done.
    - split; first done. intros Hin.
      assert (existsb (String.eqb (Multer.mimetype file))
                (allowedTypes ALLOWED_FILE_TYPES) = true); last congruence.
      apply existsb_exists. exists (Multer.mimetype file).
      split; [done | apply String.eqb_refl]. }
  split_and!.
  - intros s ->. simpl. split_and!.
    + apply join_split.
    + apply split_commas_free.
    + intros Hcomma Hpass. apply Hiff in Hpass.
      apply split_commas_free in Hpass. congruence.
  - by intros ->.
  - exact Hiff.
  - intros Hout. rewrite /fileFilter.
    destruct (existsb _ _) eqn:E; last done.
    destruct Hout. apply existsb_exists in E as (x & Hin & ->%String.eqb_eq). done.
Qed.

Lemma fileFilter_exact_entries_witness :
  allowedTypes (Some "image/png, text/plain") = ["image/png"; " text/plain"] ∧
  fileFilter (Some "image/png, text/plain") text_upload =
    Throws (JsError "File type text/plain is not allowed") ∧
  fileFilter (Some "image/png, text/plain") png_upload = Returns true ∧
  fileFilter None text_upload = Returns true.
Proof.
  destruct (fileFilter_exact_entries (Some "image/png, text/plain") text_upload)
    as (_ & _ & _ & Hout).
  destruct (fileFilter_exact_entries (Some "image/png, text/plain") png_upload)
    as (_ & _ & Hin & _).
  destruct (fileFilter_exact_entries None text_upload) as (_ & Hdefault & _ & _).
  split_and!.
  - reflexivity.
  - apply Hout. simpl. intros [H|[H|[]]]; discriminate.
  - apply Hin. by left.
  - apply (Hdefault eq_refl). simpl. tauto.
Defined.

(** ** Handlers one after the other *)

Lemma remove_set_absent {V} (m : JSMap.t V) k v :
  JSMap.get m k = None → JSMap.remove (JSMap.set m k v) k = m.
Proof.
  induction m as [|[k' v'] m IH]; simpl.
  - by rewrite String.eqb_refl.
  - destruct (String.eqb k k') eqn:E; first done.
    intros H. by rewrite /= E IH.
Qed.

(** What a successful [uploadSingle] leaves behind, in full. *)
Lemma uploadSingle_run (S3_BUCKET : string) (NODE_ENV : option string)
    env req file w loc tag url :
  Req.file req = Some file →
  type_ok env file = true →
  stored env = Returns (loc, tag) →
  signed env = Returns url →
  ∃ obj r,
    (uploadSingle S3_BUCKET NODE_ENV env req w).1 =
      mkWorld (set_files (JSMap.set (files (service w)) (uuid env) r) (service w))
        (<[key_of (owner req) (uuid env) file := obj]> (s3 w))
        (staged w ∖ {[Multer.path file]}) ∧
    s3Key r = key_of (owner req) (uuid env) file ∧
    (originalName r, mimeType r, size r, uploadedAt r) =
      (Multer.originalname file, Multer.mimetype file, Multer.size file, t_uploaded env) ∧
    count_of r = 0.
Proof.
  intros Hfile Hok Hst Hsig.
  destruct (uploadFile_ok S3_BUCKET NODE_ENV env file (uuid env) (owner req) (s3 w)
              loc tag Hok Hst) as (obj & Hrun & _).
  run_controller. rewrite Hfile /= Hrun /= cleanup_spec /= Hsig /=.
  eexists obj, _. split; [reflexivity|]. done.
Qed.

(** What a successful [getFile] leaves behind. *)
Lemma getFile_run env ta tu now req w r url :
  JSMap.get (files (service w)) (FileReq.fileId req) = Some r →
  signed env = Returns url →
  ∃ w' r',
    FileController.getFile env ta tu now req w =
      (w', Returns (Json 200
                      (FileInfo.mk (FileReq.fileId req) (originalName r) (mimeType r)
                         (size r) url
                         (now + default 3600 (FileReq.expires req) * 1000)
                         (uploadedAt r)))) ∧
    JSMap.get (files (service w')) (FileReq.fileId req) = Some r' ∧
    accessCount r' = Some (count_of r + 1) ∧
    lastAccessed r' = DateAt ta.
Proof.
  intros Hget Hsig.
  destruct (updateAccessStats_present ta tu (FileReq.fileId req) (service w) r Hget)
    as (st' & Hrun & Hget' & _).
  run_files. rewrite Hget /= Hsig /= ?set_service_same ?set_s3_same Hrun /=.
  eexists _, _. split; [reflexivity|]. simpl. by split_and!.
Qed.

(** X24. Uploading a file and then deleting it brings the index and the
    bucket back to where they were: for an id and a key that were not in
    use before, after a successful [uploadSingle] and a successful
    [deleteFile] of that id, the metadata service and the bucket are
    exactly as before the upload. *)
Theorem upload_then_delete_restores (S3_BUCKET : string) (NODE_ENV : option string)
    env req file w loc tag url now :
  Req.file req = Some file →
  type_ok env file = true →
  stored env = Returns (loc, tag) →
  signed env = Returns url →
  JSMap.get (files (service w)) (uuid env) = None →
  JSMap.get (accessStats (service w)) (uuid env) = None →
  JSMap.get (shareActivity (service w)) (uuid env) = None →
  s3 w !! key_of (owner req) (uuid env) file = None →
  ∃ w2,
    FileController.deleteFile (Returns tt) now (for_id (uuid env))
      (uploadSingle S3_BUCKET NODE_ENV env req w).1
    = (w2, Returns (Json 200 (Removed.mk (uuid env) now))) ∧
    service w2 = service w ∧
    s3 w2 = s3 w.
Proof.
  intros Hfile Hok Hst Hsig Hnew Hstats Hshare Hkey.
  destruct (uploadSingle_run S3_BUCKET NODE_ENV env req file w loc tag url
              Hfile Hok Hst Hsig) as (obj & r & -> & Hr & _).
  run_files. rewrite JSMapFacts.get_set_eq /=.
  eexists. split; [reflexivity|]. simpl. split.
  - rewrite remove_set_absent // !JSMapFacts.remove_absent //. by destruct (service w).
  - rewrite Hr. by apply delete_insert_id.
Qed.

Lemma upload_then_delete_restores_witness :
  ∃ w2,
    FileController.deleteFile (Returns tt) 900 (for_id "id-2")
      (uploadSingle "bucket" None all_fine (anonymous_single text_upload)
         (mkWorld three_files ∅ ∅)).1
    = (w2, Returns (Json 200 (Removed.mk "id-2" 900))) ∧
    service w2 = three_files ∧
    s3 w2 = ∅.
Proof.
  exact (upload_then_delete_restores "bucket" None all_fine (anonymous_single text_upload)
           text_upload (mkWorld three_files ∅ ∅) "https://bucket/loc" "etag"
           "https://signed" 900 eq_refl eq_refl eq_refl eq_refl
           eq_refl eq_refl eq_refl eq_refl).
Defined.

(** X25. What was uploaded is what [getFile] answers with: after a
    successful [uploadSingle], [getFile] for the returned id answers
    with the declared name, type and size and the upload time, and that
    first read makes the access count of the record one. *)
Theorem upload_then_get (S3_BUCKET : string) (NODE_ENV : option string)
    env req file w loc tag url env' url' ta tu now :
  Req.file req = Some file →
  type_ok env file = true →
  stored env = Returns (loc, tag) →
  signed env = Returns url →
  signed env' = Returns url' →
  ∃ w2 r,
    FileController.getFile env' ta tu now (for_id (uuid env))
      (uploadSingle S3_BUCKET NODE_ENV env req w).1
    = (w2, Returns (Json 200
                      (FileInfo.mk (uuid env) (Multer.originalname file)
                         (Multer.mimetype file) (Multer.size file) url'
                         (now + 3600 * 1000) (t_uploaded env)))) ∧
    JSMap.get (files (service w2)) (uuid env) = Some r ∧
    accessCount r = Some 1 ∧
    lastAccessed r = DateAt ta.
Proof.
  intros Hfile Hok Hst Hsig Hsig'.
  destruct (uploadSingle_run S3_BUCKET NODE_ENV env req file w loc tag url
              Hfile Hok Hst Hsig) as (obj & r & -> & Hr & Hfields & Hcount).
  match goal with
  | |- context [FileController.getFile _ _ _ _ _ ?w1] =>
      destruct (getFile_run env' ta tu now (for_id (uuid env)) w1 r url')
        as (w2 & r' & Hrun & Hget & Hacc & Hlast);
        [simpl; apply JSMapFacts.get_set_eq | exact Hsig' |]
  end.
  exists w2, r'. rewrite Hrun. injection Hfields as -> -> -> ->.
  split_and!; try done. by rewrite Hacc Hcount.
Qed.

Lemma upload_then_get_witness :
  ∃ w2 r,
    FileController.getFile all_fine 950 951 952 (for_id "id-2")
      (uploadSingle "bucket" None all_fine (anonymous_single text_upload) empty_world).1
    = (w2, Returns (Json 200
                      (FileInfo.mk "id-2" "notes.txt" "text/plain" 10 "https://signed"
                         3600952 201))) ∧
    JSMap.get (files (service w2)) "id-2" = Some r ∧
    accessCount r = Some 1.
Proof.
  destruct (upload_then_get "bucket" None all_fine (anonymous_single text_upload)
              text_upload empty_world "https://bucket/loc" "etag" "https://signed"
              all_fine "https://signed" 950 951 952
              eq_refl eq_refl eq_refl eq_refl eq_refl)
    as (w2 & r & Hrun & Hget & Hacc & _).
  exists w2, r. split_and!; [exact Hrun | exact Hget | exact Hacc].
Defined.
